(** * Bibliometria-scopus: the summarizer script and the Scopus search glue

    A shallow embedding of [summarize_map_reduce.py] and of the search
    functions of [app.py].  Python strings are sequences of Unicode code
    points; the third-party collaborators (the text splitter, the chat model,
    the HTTP endpoint) are Section variables, and every call to one of them
    is recorded in a trace. *)

From Stdlib Require Import ZArith NArith List String Ascii Lia Bool Arith.
From Stdlib Require Import Floats.SpecFloat.
From Stdlib Require Import Sorting.Sorted Sorting.Permutation.
Import ListNotations.

Local Open Scope Z_scope.

(** ** Python builtins used by the two scripts *)

Module Py.

(** A [str] is a sequence of code points. *)
Definition char := N.
Definition str := list char.

(** Source files are UTF-8: a literal of the source is the decoding of its
    bytes. *)
Fixpoint utf8_decode (bs : list N) : str :=
  match bs with
  | [] => []
  | b :: r =>
      if (b <? 128)%N then b :: utf8_decode r
      else if (b <? 224)%N then
        match r with
        | b1 :: r1 =>
            (N.land b 31 * 64 + N.land b1 63)%N :: utf8_decode r1
        | _ => [b]
        end
      else if (b <? 240)%N then
        match r with
        | b1 :: b2 :: r2 =>
            (N.land b 15 * 4096 + N.land b1 63 * 64 + N.land b2 63)%N
              :: utf8_decode r2
        | _ => [b]
        end
      else
        match r with
        | b1 :: b2 :: b3 :: r3 =>
            (N.land b 7 * 262144 + N.land b1 63 * 4096
             + N.land b2 63 * 64 + N.land b3 63)%N :: utf8_decode r3
        | _ => [b]
        end
  end.

Definition lit (s : string) : str :=
  utf8_decode (map N_of_ascii (list_ascii_of_string s)).

(** [str.isspace] on one character: the code points CPython's
    [_PyUnicode_IsWhitespace] accepts. *)
Definition isspace (c : char) : bool :=
  ((9 <=? c) && (c <=? 13) || (28 <=? c) && (c <=? 32)
   || (c =? 133) || (c =? 160) || (c =? 5760)
   || (8192 <=? c) && (c <=? 8202)
   || (c =? 8232) || (c =? 8233) || (c =? 8239) || (c =? 8287)
   || (c =? 12288))%N.

(** [s.lstrip()], [s.rstrip()] and [s.strip()] with no argument. *)
Fixpoint lstrip (s : str) : str :=
  match s with
  | [] => []
  | c :: r => if isspace c then lstrip r else s
  end.

Definition rstrip (s : str) : str := rev (lstrip (rev s)).

Definition strip (s : str) : str := rstrip (lstrip s).

(** A text that is empty or whitespace-only. *)
Definition blank (s : str) : Prop := Forall (fun c => isspace c = true) s.

(** Truth value of a string: [not s] holds of the empty string only. *)
Definition str_truthy (s : str) : bool :=
  match s with [] => false | _ => true end.

(** [sep.join(xs)]. *)
Fixpoint join (sep : str) (xs : list str) : str :=
  match xs with
  | [] => []
  | [x] => x
  | x :: r => x ++ sep ++ join sep r
  end.

(** [l[:m]]: a negative bound counts from the end. *)
Definition slice_to {A} (l : list A) (m : Z) : list A :=
  if 0 <=? m then firstn (Z.to_nat m) l
  else firstn (Z.to_nat (Z.of_nat (List.length l) + m)) l.

(** [range(start, stop, step)] as the list it iterates over; [None] is the
    [ValueError] of a zero step. *)
Definition range_len (start stop step : Z) : Z :=
  if 0 <? step then
    if start <? stop then (stop - start - 1) / step + 1 else 0
  else
    if stop <? start then (start - stop - 1) / (- step) + 1 else 0.

Definition range (start stop step : Z) : option (list Z) :=
  if step =? 0 then None
  else Some (map (fun i => start + Z.of_nat i * step)
                 (seq 0 (Z.to_nat (range_len start stop step)))).

End Py.

Import Py.

(** ** Exceptions and the call monad *)

(** The exception classes the two scripts can meet.  A provider error
    carries the class name its library gives it and whether a retry may
    succeed.  [UnicodeEncodeError] comes from [print] only and
    [SystemExit] from the argument parser or a collaborator. *)
Inductive exc_class :=
| ValueError
| TypeError
| AttributeError
| OverflowError
| FileNotFoundError
| OSError
| HTTPError
| UnicodeEncodeError
| SystemExit (code : Z)
| ProviderError (retryable : bool) (name : str).

Record exn := Exn { exn_class : exc_class; exn_msg : str }.

Inductive result (A : Type) :=
| Ok (a : A)
| Raise (e : exn).
Arguments Ok {A} a.
Arguments Raise {A} e.

Definition class_name (c : exc_class) : str :=
  match c with
  | ValueError => lit "ValueError"
  | TypeError => lit "TypeError"
  | AttributeError => lit "AttributeError"
  | OverflowError => lit "OverflowError"
  | FileNotFoundError => lit "FileNotFoundError"
  | OSError => lit "OSError"
  | HTTPError => lit "requests.exceptions.HTTPError"
  | UnicodeEncodeError => lit "UnicodeEncodeError"
  | SystemExit _ => lit "SystemExit"
  | ProviderError _ name => name
  end.

(** [SystemExit] is the one class here that is no [Exception]: the
    interpreter leaves with its code and writes no traceback. *)
Definition is_system_exit (e : exn) : bool :=
  match exn_class e with
  | SystemExit _ => true
  | _ => false
  end.

(** The last line of the traceback the interpreter writes for an exception
    nobody caught. *)
Definition exc_line (e : exn) : str :=
  match exn_msg e with
  | [] => class_name (exn_class e)
  | m => class_name (exn_class e) ++ lit ": " ++ m
  end.

Module Summarizer.

(** What the script does to the outside world, in order. *)
Inductive event :=
| EvSplit (chunk_size chunk_overlap : Z) (text : str)
| EvChatOpenAI (model : str) (temperature : Z)
| EvInvoke (model : str) (prompt : str)
| EvPrint (line : str)
| EvUsage (out : str) (err : option str).

Definition trace := list event.

(** A computation reads the trace so far and returns a value or raises,
    with the trace extended by what it did. *)
Definition M (A : Type) := trace -> result A * trace.

Definition ret {A} (a : A) : M A := fun tr => (Ok a, tr).
Definition raise {A} (e : exn) : M A := fun tr => (Raise e, tr).
Definition bind {A B} (c : M A) (k : A -> M B) : M B :=
  fun tr =>
    match c tr with
    | (Ok a, tr') => k a tr'
    | (Raise e, tr') => (Raise e, tr')
    end.

Notation "x <- c ;; k" := (bind c (fun x => k))
  (at level 61, c at next level, right associativity).

(** A list comprehension whose body performs calls: left to right, the
    first exception ends it. *)
Fixpoint mapM {A B} (f : A -> M B) (xs : list A) : M (list B) :=
  match xs with
  | [] => ret []
  | x :: r => y <- f x ;; ys <- mapM f r ;; ret (y :: ys)
  end.

Definition is_invoke (e : event) : bool :=
  match e with EvInvoke _ _ => true | _ => false end.

(** Number of completion calls a trace holds. *)
Definition calls (tr : trace) : nat := List.length (filter is_invoke tr).

Definition default_model : str := lit "gpt-4o-mini".
Definition default_chunk_size : Z := 2000.
Definition default_chunk_overlap : Z := 200.

(** The two prompt templates; each ends in its only placeholder, so the
    formatted prompt is the fixed text followed by the value. *)
Definition map_template : str := lit
"Você é um assistente especialista em sumarização.
Resuma o trecho abaixo em até 5 bullets curtos, mantendo fatos principais.

Trecho:
".

Definition reduce_template : str := lit
"Você recebeu resumos parciais de um documento longo.
Gere um resumo final em português com:
1) visão geral (2-3 frases)
2) principais pontos em bullets
3) próximos passos sugeridos (opcional)

Resumos parciais:
".

Definition map_prompt (context : str) : str := map_template ++ context.
Definition reduce_prompt (summaries : str) : str :=
  reduce_template ++ summaries.

Definition summaries_sep : str := lit "

".

(** The completion calls of a map stage that runs to its end. *)
Definition map_events (model : str) (docs : list str) : trace :=
  map (fun doc => EvInvoke model (map_prompt doc)) docs.

Section Collaborators.

(** [RecursiveCharacterTextSplitter(chunk_size, chunk_overlap)]: [None]
    when the splitter is built, the exception of the constructor
    otherwise. *)
Variable text_splitter : Z -> Z -> option exn.

(** [splitter.create_documents([text])] on a splitter that was built, as
    the page contents of the documents it returns. *)
Variable splitter : Z -> Z -> str -> result (list str).

(** [ChatOpenAI(model, temperature)]: [None] when the client is built. *)
Variable chat_open_ai : str -> Z -> option exn.

(** One completion: the answer of the model to a prompt, which may depend
    on everything that happened before. *)
Variable llm : trace -> str -> str -> result str.

(** Building the splitter looks at the two numbers only; the text is not
    in sight yet. *)
Definition RecursiveCharacterTextSplitter (chunk_size chunk_overlap : Z)
  : M unit :=
  fun tr =>
    (match text_splitter chunk_size chunk_overlap with
     | None => Ok tt
     | Some e => Raise e
     end, tr).

Definition create_documents (chunk_size chunk_overlap : Z) (text : str)
  : M (list str) :=
  fun tr => (splitter chunk_size chunk_overlap text,
             tr ++ [EvSplit chunk_size chunk_overlap text]).

Definition ChatOpenAI (model : str) (temperature : Z) : M unit :=
  fun tr =>
    (match chat_open_ai model temperature with
     | None => Ok tt
     | Some e => Raise e
     end, tr ++ [EvChatOpenAI model temperature]).

(** [(prompt | llm | parser).invoke(...)] once the prompt is formatted. *)
Definition invoke (model : str) (prompt : str) : M str :=
  fun tr => (llm tr model prompt, tr ++ [EvInvoke model prompt]).

Definition map_stage (model : str) (docs : list str) : M (list str) :=
  mapM (fun doc => invoke model (map_prompt doc)) docs.

Definition reduce_body (partial_summaries : list str) : str :=
  join summaries_sep partial_summaries.

Definition reduce_stage (model : str) (partial_summaries : list str)
  : M str :=
  invoke model (reduce_prompt (reduce_body partial_summaries)).

Definition summarize_text (text model_name : str)
  (chunk_size chunk_overlap : Z) : M str :=
  if negb (str_truthy (strip text)) then
    raise (Exn ValueError (lit "Input text is empty."))
  else
    _ <- RecursiveCharacterTextSplitter chunk_size chunk_overlap ;;
    docs <- create_documents chunk_size chunk_overlap text ;;
    _ <- ChatOpenAI model_name 0 ;;
    partial_summaries <- map_stage model_name docs ;;
    final_summary <- reduce_stage model_name partial_summaries ;;
    ret final_summary.

(** *** The command line *)

Record Namespace := {
  input_file : str;
  model : str;
  chunk_size : Z;
  chunk_overlap : Z
}.

(** What [parse_args] comes to: the namespace, or argparse leaving the
    program (status 2 after a usage error, status 0 after the help text)
    with what it wrote to standard output and the last line it wrote to
    standard error. *)
Inductive parsed :=
| Parsed (args : Namespace)
| Exits (code : Z) (out : str) (err : option str).

(** [load_dotenv()]: [None] when it returns. *)
Variable dotenv : option exn.

(** The parser of [parse_args] on the arguments of the command line. *)
Variable argparse : list str -> parsed.

(** The file system as [main] sees it: [Path.exists] and
    [Path.read_text(encoding="utf-8")]. *)
Variable path_exists : str -> bool.
Variable read_text : str -> result str.

(** [sys.stdout.write] of a text: [None] when it is written, the
    exception otherwise ([UnicodeEncodeError] when the encoding of
    standard output lacks one of its characters); nothing is written
    then. *)
Variable stdout_write : str -> option exn.

Definition load_dotenv : M unit :=
  fun tr => (match dotenv with None => Ok tt | Some e => Raise e end, tr).

Definition parse_args (argv : list str) : M Namespace :=
  fun tr =>
    match argparse argv with
    | Parsed args => (Ok args, tr)
    | Exits code out err =>
        (Raise (Exn (SystemExit code) []), tr ++ [EvUsage out err])
    end.

Definition print (s : str) : M unit :=
  fun tr =>
    match stdout_write s with
    | None => (Ok tt, tr ++ [EvPrint s])
    | Some e => (Raise e, tr)
    end.

Definition main (argv : list str) : M unit :=
  _ <- load_dotenv ;;
  args <- parse_args argv ;;
  if negb (path_exists (input_file args)) then
    raise (Exn FileNotFoundError (lit "File not found: " ++ input_file args))
  else
    text <- (fun tr => (read_text (input_file args), tr)) ;;
    summary <- summarize_text text (model args) (chunk_size args)
                 (chunk_overlap args) ;;
    print summary.

(** What went to standard output: each printed value and a newline, and
    what argparse wrote. *)
Fixpoint stdout_of (tr : trace) : str :=
  match tr with
  | [] => []
  | EvPrint s :: r => s ++ [10%N] ++ stdout_of r
  | EvUsage out _ :: r => out ++ stdout_of r
  | _ :: r => stdout_of r
  end.

(** The last line argparse wrote to standard error. *)
Fixpoint usage_error (tr : trace) : option str :=
  match tr with
  | [] => None
  | EvUsage _ err :: r =>
      match usage_error r with
      | Some later => Some later
      | None => err
      end
  | _ :: r => usage_error r
  end.

(** A computation that prints nothing. *)
Definition quiet {A} (c : M A) : Prop :=
  forall tr r tr', c tr = (r, tr') -> stdout_of tr' = stdout_of tr.

(** A computation that only adds to the trace. *)
Definition grows {A} (c : M A) : Prop :=
  forall tr r tr', c tr = (r, tr') -> exists suffix, tr' = tr ++ suffix.

Record outcome := {
  exit_code : Z;
  stdout : str;
  stderr_last_line : option str
}.

(** The script run as a program on the arguments [argv]: the interpreter
    exits with 0 when [main] returns, with the code of a [SystemExit], and
    with 1 after writing the traceback of any other exception. *)
Definition run_script (argv : list str) : outcome :=
  match main argv [] with
  | (Ok _, tr) =>
      {| exit_code := 0; stdout := stdout_of tr; stderr_last_line := None |}
  | (Raise (Exn (SystemExit code) _), tr) =>
      {| exit_code := code; stdout := stdout_of tr;
         stderr_last_line := usage_error tr |}
  | (Raise e, tr) =>
      {| exit_code := 1; stdout := stdout_of tr;
         stderr_last_line := Some (exc_line e) |}
  end.

End Collaborators.

End Summarizer.

(** ** The Scopus search functions of [app.py] *)

Module Scopus.

(** A decoded JSON document, as [response.json()] returns it. *)
#[local] Unset Elimination Schemes.
Inductive json :=
| JNull
| JBool (b : bool)
| JInt (z : Z)
| JFloat (f : spec_float)
| JStr (s : str)
| JList (l : list json)
| JDict (d : list (str * json)).
#[local] Set Elimination Schemes.

Fixpoint str_eqb (a b : str) : bool :=
  match a, b with
  | [], [] => true
  | x :: a', y :: b' => (x =? y)%N && str_eqb a' b'
  | _, _ => false
  end.

(** The value stored under [key], if any. *)
Fixpoint dict_lookup (d : list (str * json)) (key : str) : option json :=
  match d with
  | [] => None
  | (k, v) :: r => if str_eqb k key then Some v else dict_lookup r key
  end.

(** [d.get(key, default)]. *)
Definition dict_get (d : list (str * json)) (key : str) (default : json)
  : json :=
  match dict_lookup d key with
  | Some v => v
  | None => default
  end.

Definition type_name (v : json) : str :=
  match v with
  | JNull => lit "NoneType"
  | JBool _ => lit "bool"
  | JInt _ => lit "int"
  | JFloat _ => lit "float"
  | JStr _ => lit "str"
  | JList _ => lit "list"
  | JDict _ => lit "dict"
  end.

Definition no_attribute (v : json) (attr : str) : exn :=
  Exn AttributeError
    (lit "'" ++ type_name v ++ lit "' object has no attribute '" ++ attr
     ++ lit "'").

(** The receiver of a [.get(...)] call: only a dict has the method. *)
Definition get_receiver (v : json) : result (list (str * json)) :=
  match v with
  | JDict d => Ok d
  | _ => Raise (no_attribute v (lit "get"))
  end.

(** Truth value of a JSON value, as [or] tests it. *)
Definition truthy (v : json) : bool :=
  match v with
  | JNull => false
  | JBool b => b
  | JInt z => negb (z =? 0)
  | JFloat (S754_zero _) => false
  | JFloat _ => true
  | JStr s => str_truthy s
  | JList l => match l with [] => false | _ => true end
  | JDict d => match d with [] => false | _ => true end
  end.

(** [int(f)] of a finite float: its value rounded toward zero. *)
Definition float_trunc (s : bool) (m : positive) (e : Z) : Z :=
  let v := if 0 <=? e then Z.pos m * 2 ^ e else Z.pos m / 2 ^ (- e) in
  if s then - v else v.

Definition rbind {A B} (c : result A) (k : A -> result B) : result B :=
  match c with
  | Ok a => k a
  | Raise e => Raise e
  end.

Notation "x <-- c ;; k" := (rbind c (fun x => k))
  (at level 61, c at next level, right associativity).

Record SearchResult := {
  total_results : Z;
  entries : json
}.

(** [len(v)] where it is defined. *)
Definition py_len (v : json) : option nat :=
  match v with
  | JStr s => Some (List.length s)
  | JList l => Some (List.length l)
  | JDict d => Some (List.length d)
  | _ => None
  end.

(** What [list.extend] appends: the items its argument iterates over. *)
Definition iterate (v : json) : result (list json) :=
  match v with
  | JList l => Ok l
  | JStr s => Ok (map (fun c => JStr [c]) s)
  | JDict d => Ok (map (fun kv => JStr (fst kv)) d)
  | _ => Raise (Exn TypeError
                  (lit "'" ++ type_name v ++ lit "' object is not iterable"))
  end.

(** [v[:m]].  A dict rejects the slice as a key ([TypeError] up to
    Python 3.11). *)
Definition slice (v : json) (m : Z) : result json :=
  match v with
  | JList l => Ok (JList (slice_to l m))
  | JStr s => Ok (JStr (slice_to s m))
  | JDict _ => Raise (Exn TypeError (lit "unhashable type: 'slice'"))
  | _ => Raise (Exn TypeError
                  (lit "'" ++ type_name v
                   ++ lit "' object is not subscriptable"))
  end.

Section Web.

(** [int(s)] of a string: [None] is its [ValueError]. *)
Variable str_to_int : str -> option Z.

(** [get_page]: the request, [raise_for_status] and [response.json()]. *)
Variable get_page : str -> str -> Z -> Z -> result json.

(** The message of this error goes on with the text of the literal. *)
Definition invalid_literal : exn :=
  Exn ValueError (lit "invalid literal for int() with base 10").

(** The builtin [int] applied to a JSON value. *)
Definition py_int (raw : json) : result Z :=
  match raw with
  | JBool b => Ok (if b then 1 else 0)
  | JInt z => Ok z
  | JFloat (S754_zero _) => Ok 0
  | JFloat (S754_finite s m e) => Ok (float_trunc s m e)
  | JFloat (S754_infinity _) =>
      Raise (Exn OverflowError
               (lit "cannot convert float infinity to integer"))
  | JFloat S754_nan =>
      Raise (Exn ValueError (lit "cannot convert float NaN to integer"))
  | JStr s =>
      match str_to_int s with
      | Some z => Ok z
      | None => Raise invalid_literal
      end
  | _ =>
      Raise (Exn TypeError
               (lit "int() argument must be a string, a bytes-like object "
                ++ lit "or a real number, not '" ++ type_name raw
                ++ lit "'"))
  end.

Definition search_results_key : str := lit "search-results".
Definition total_results_key : str := lit "opensearch:totalResults".
Definition entry_key : str := lit "entry".

(** The value [parse_total] hands to [int]. *)
Definition raw_total (payload : json) : result json :=
  d <-- get_receiver payload ;;
  sr <-- get_receiver (dict_get d search_results_key (JDict [])) ;;
  Ok (dict_get sr total_results_key (JInt 0)).

Definition parse_total (payload : json) : result Z :=
  raw <-- raw_total payload ;;
  match py_int raw with
  | Ok z => Ok z
  | Raise (Exn TypeError _) => Ok 0
  | Raise (Exn ValueError _) => Ok 0
  | Raise e => Raise e
  end.

(** [payload.get("search-results", {}).get("entry", []) or []]. *)
Definition page_entries (payload : json) : result json :=
  d <-- get_receiver payload ;;
  sr <-- get_receiver (dict_get d search_results_key (JDict [])) ;;
  let e := dict_get sr entry_key (JList []) in
  Ok (if truthy e then e else JList []).

(** [entries.extend(...)]: the method is looked up before its argument is
    evaluated. *)
Definition extend (entries : json) (page : json) : result json :=
  match entries with
  | JList l =>
      more <-- page_entries page ;;
      items <-- iterate more ;;
      Ok (JList (l ++ items))
  | _ => Raise (no_attribute entries (lit "extend"))
  end.

(** What one more page adds to a list of entries: the items of its
    "entry" value. *)
Definition page_items (api_key query : str) (count start : Z)
  : result (list json) :=
  page <-- get_page api_key query count start ;;
  more <-- page_entries page ;;
  iterate more.

(** The body of the [for] loop, over the values of [range]. *)
Fixpoint fetch_pages (api_key query : str) (count : Z) (starts : list Z)
  (entries : json) : result json :=
  match starts with
  | [] => Ok entries
  | start :: r =>
      page <-- get_page api_key query count start ;;
      entries' <-- extend entries page ;;
      fetch_pages api_key query count r entries'
  end.

(** [search_scopus] on a call the cache has not seen. *)
Definition search_scopus (api_key query : str) (count max_results : Z)
  : result SearchResult :=
  payload <-- get_page api_key query count 0 ;;
  total <-- parse_total payload ;;
  entries <-- page_entries payload ;;
  let max_to_fetch := Z.min total max_results in
  starts <-- match range count max_to_fetch count with
             | Some l => Ok l
             | None =>
                 Raise (Exn ValueError (lit "range() arg 3 must not be zero"))
             end ;;
  entries <-- fetch_pages api_key query count starts entries ;;
  sliced <-- slice entries max_to_fetch ;;
  Ok {| total_results := total; entries := sliced |}.

End Web.

End Scopus.

(** ** The title terms of [app.py] *)

Module Terms.

Definition STOPWORDS : list str :=
  map lit
    ["a"; "as"; "o"; "os"; "de"; "da"; "das"; "do"; "dos"; "e"; "em"; "no";
     "na"; "nos"; "nas"; "um"; "uma"; "para"; "por"; "com"; "the"; "and";
     "for"; "in"; "on"; "of"; "to"]%string.

(** [token in STOPWORDS]. *)
Definition is_stopword (token : str) : bool :=
  existsb (Scopus.str_eqb token) STOPWORDS.

(** The character class of the pattern: A-Z, a-z and the Latin-1 letters
    from A-grave to y-diaeresis, the two signs between them left out. *)
Definition is_letter (c : char) : bool :=
  ((65 <=? c) && (c <=? 90) || (97 <=? c) && (c <=? 122)
   || (192 <=? c) && (c <=? 214) || (216 <=? c) && (c <=? 246)
   || (248 <=? c) && (c <=? 255))%N.

(** A run of letters the scan has just left, kept when the pattern accepts
    it: three letters or more.  The run is held last letter first. *)
Definition close_run (run : str) : list str :=
  if (3 <=? List.length run)%nat then [rev run] else [].

(** [re.findall] of the pattern: the scan goes left to right and every
    match takes all the letters that follow, so the matches are the
    maximal runs of letters that are long enough. *)
Fixpoint scan (s : str) (run : str) : list str :=
  match s with
  | [] => close_run run
  | c :: r =>
      if is_letter c then scan r (c :: run)
      else close_run run ++ scan r []
  end.

Definition findall (s : str) : list str := scan s [].

(** [counter[token] += 1]: a new key goes last, as in a dict. *)
Fixpoint incr (counter : list (str * Z)) (token : str) : list (str * Z) :=
  match counter with
  | [] => [(token, 1)]
  | (k, n) :: r =>
      if Scopus.str_eqb k token then (k, n + 1) :: r
      else (k, n) :: incr r token
  end.

(** [counter[token]]: a key that is missing counts zero. *)
Fixpoint value (counter : list (str * Z)) (token : str) : Z :=
  match counter with
  | [] => 0
  | (k, n) :: r => if Scopus.str_eqb k token then n else value r token
  end.

(** A reported term: three letters or more and nothing but letters. *)
Definition is_term (token : str) : Prop :=
  (3 <= List.length token)%nat /\ Forall (fun c => is_letter c = true) token.

(** Rows by falling frequency. *)
Definition falling (a b : str * Z) : Prop := snd b <= snd a.

(** The inner loop, over the tokens of one text. *)
Definition count_tokens (counter : list (str * Z)) (tokens : list str)
  : list (str * Z) :=
  fold_left (fun c token => if is_stopword token then c else incr c token)
            tokens counter.

(** [sorted(items, key=count, reverse=True)]: among equal counts the
    earlier item stays first. *)
Fixpoint insert_desc (x : str * Z) (l : list (str * Z)) : list (str * Z) :=
  match l with
  | [] => [x]
  | y :: r => if snd y <=? snd x then x :: l else y :: insert_desc x r
  end.

Fixpoint sort_desc (l : list (str * Z)) : list (str * Z) :=
  match l with
  | [] => []
  | x :: r => insert_desc x (sort_desc r)
  end.

(** [Counter.most_common(n)]: the [n] largest, none when [n] is not
    positive. *)
Definition most_common (counter : list (str * Z)) (n : Z)
  : list (str * Z) :=
  if n <=? 0 then [] else firstn (Z.to_nat n) (sort_desc counter).

(** [series.dropna().astype(str)] on a column of titles: the missing
    values go, the titles are strings already. *)
Fixpoint dropna (series : list (option str)) : list str :=
  match series with
  | [] => []
  | Some text :: r => text :: dropna r
  | None :: r => dropna r
  end.

Section Lower.

(** [str.lower]. *)
Variable lower : str -> str.

(** The counter when the two loops are over. *)
Definition count_terms (series : list (option str)) : list (str * Z) :=
  fold_left (fun c text => count_tokens c (findall (lower text)))
            (dropna series) [].

(** [top_terms]: the rows of the frame, term and frequency. *)
Definition top_terms (series : list (option str)) (top_n : Z)
  : list (str * Z) :=
  most_common (count_terms series) top_n.

(** Every token the loops see, stop words included. *)
Definition all_tokens (series : list (option str)) : list str :=
  flat_map (fun text => findall (lower text)) (dropna series).

End Lower.

(** How often [token] stands in [tokens]. *)
Definition occurrences (token : str) (tokens : list str) : Z :=
  Z.of_nat (List.length (filter (Scopus.str_eqb token) tokens)).

Definition default_top_n : Z := 20.

End Terms.

(** ** Test doubles

    Stand-ins for the collaborators, used to run the definitions on
    concrete inputs. *)

Module Double.

Import Summarizer.

Definition fixed_splitter (docs : list str) : Z -> Z -> str -> result (list str) :=
  fun _ _ _ => Ok docs.

Definition splitter_ok : Z -> Z -> option exn := fun _ _ => None.

Definition client_ok : str -> Z -> option exn := fun _ _ => None.

Definition fixed_llm (answer : str) : trace -> str -> str -> result str :=
  fun _ _ _ => Ok answer.

(** A model that raises [e] on the call that follows [n] earlier ones. *)
Definition failing_llm (n : nat) (e : exn) (answer : str)
  : trace -> str -> str -> result str :=
  fun tr _ _ => if Nat.eqb (calls tr) n then Raise e else Ok answer.

Definition rate_limit : exn :=
  Exn (ProviderError true (lit "openai.RateLimitError")) (lit "Error code: 429").

Definition no_files : str -> bool := fun _ => false.
Definition any_file : str -> bool := fun _ => true.
Definition file_with (content : str) : str -> result str :=
  fun _ => Ok content.

Definition sample_args : Namespace :=
  {| input_file := lit "notas.txt"; model := default_model;
     chunk_size := default_chunk_size;
     chunk_overlap := default_chunk_overlap |}.

Definition dotenv_ok : option exn := None.

Definition sample_argv : list str := [lit "notas.txt"].

(** A parser that answers with the given namespace. *)
Definition parse_to (args : Namespace) : list str -> parsed :=
  fun _ => Parsed args.

(** A standard output that takes every text. *)
Definition utf8_stdout : str -> option exn := fun _ => None.

(** What an ASCII standard output answers to a text that starts with an
    e-acute. *)
Definition e_acute_rejected : exn :=
  Exn UnicodeEncodeError
    (lit "'ascii' codec can't encode character '\xe9' in position 0: ordinal not in range(128)").

(** A standard output limited to ASCII. *)
Definition ascii_stdout : str -> option exn :=
  fun s =>
    if forallb (fun c => (c <? 128)%N) s then None
    else Some e_acute_rejected.

(** [int] on strings, restricted to an optional minus sign and ASCII
    digits. *)
Fixpoint digits_value (acc : Z) (s : str) : option Z :=
  match s with
  | [] => Some acc
  | c :: r =>
      if ((48 <=? c) && (c <=? 57))%N
      then digits_value (10 * acc + (Z.of_N c - 48)) r
      else None
  end.

Definition ascii_decimal (s : str) : option Z :=
  match s with
  | [] => None
  | [45%N] => None
  | 45%N :: r => option_map Z.opp (digits_value 0 r)
  | _ => digits_value 0 s
  end.

Definition one_page (payload : Scopus.json)
  : str -> str -> Z -> Z -> result Scopus.json :=
  fun _ _ _ _ => Ok payload.

Definition titled (title : string) : Scopus.json :=
  Scopus.JDict [(lit "dc:title", Scopus.JStr (lit title))].

(** A response page: the total as the service sends it and the entries. *)
Definition page_of (total : Scopus.json) (entries : list Scopus.json)
  : Scopus.json :=
  Scopus.JDict
    [(lit "search-results",
      Scopus.JDict [(lit "opensearch:totalResults", total);
                    (lit "entry", Scopus.JList entries)])].

Definition three_entries : list Scopus.json :=
  [titled "A"; titled "B"; titled "C"].

(** A service with five documents that answers two per page. *)
Definition two_per_page : str -> str -> Z -> Z -> result Scopus.json :=
  fun _ _ _ start =>
    Ok (page_of (Scopus.JStr (lit "5"))
          [Scopus.JInt start; Scopus.JInt (start + 1)]).

(** [str.lower] on ASCII and Latin-1 letters. *)
Definition latin1_lower (s : str) : str :=
  map (fun c =>
         if ((65 <=? c) && (c <=? 90) || (192 <=? c) && (c <=? 214)
             || (216 <=? c) && (c <=? 222))%N
         then (c + 32)%N else c) s.

Definition sample_titles : list (option str) :=
  [Some (lit "Inteligência artificial em bibliotecas");
   None;
   Some (lit "Bibliotecas e a inteligência artificial: um estudo");
   Some (lit "AI for libraries")].

End Double.

(** ** The tagged prompt body of the specification

    The specification has the Reduce Stage tag each partial summary by its
    position.  Whatever the tag looks like, a tagged item holds the summary
    and the tag, so it is longer than the summary alone. *)

Module TaggedSpec.

Definition position_tag (tag : nat -> str -> str) : Prop :=
  forall i s, (List.length s < List.length (tag i s))%nat.

Fixpoint tag_from (tag : nat -> str -> str) (i : nat) (xs : list str)
  : list str :=
  match xs with
  | [] => []
  | x :: r => tag i x :: tag_from tag (S i) r
  end.

Definition tagged_body (sep : str) (tag : nat -> str -> str)
  (partial_summaries : list str) : str :=
  join sep (tag_from tag 0 partial_summaries).

End TaggedSpec.

(** Where the [i]-th of the joined summaries starts in the body. *)
Fixpoint body_offset (sep : str) (xs : list str) (i : nat) : nat :=
  match i, xs with
  | S i', x :: r => List.length x + List.length sep + body_offset sep r i'
  | _, _ => 0%nat
  end.

(** * Properties *)

(** ** Python builtins *)

Module PyFacts.

Example lit_voce : lit "Você" = [86; 111; 99; 234]%N.
Proof. reflexivity. Qed.

Example strip_ex : strip (lit "  a b
 ") = lit "a b".
Proof. reflexivity. Qed.

Example range_ex : range 25 100 25 = Some [25; 50; 75].
Proof. reflexivity. Qed.

Example range_descending : range (-5) (-12) (-5) = Some [-5; -10].
Proof. reflexivity. Qed.

Example range_empty : range 25 (-1) 25 = Some [].
Proof. reflexivity. Qed.

Example slice_negative : slice_to [1; 2; 3] (-1) = [1; 2].
Proof. reflexivity. Qed.

Lemma lstrip_blank s : blank s -> lstrip s = [].
Proof.
  induction 1 as [|c r Hc _ IH]; simpl; [reflexivity|].
  now rewrite Hc.
Qed.

Lemma lstrip_nil_blank s : lstrip s = [] -> blank s.
Proof.
  induction s as [|c r IH]; simpl; intros H; [constructor|].
  destruct (isspace c) eqn:Hc; [|discriminate].
  apply Forall_cons; [exact Hc|apply IH; exact H].
Qed.

(** What is left of [lstrip] starts with a character that is not space. *)
Lemma lstrip_head s c r : lstrip s = c :: r -> isspace c = false.
Proof.
  induction s as [|a t IH]; simpl; [discriminate|].
  destruct (isspace a) eqn:Ha; [exact IH|].
  intros H; injection H as <- _; exact Ha.
Qed.

Lemma blank_rev s : blank s -> blank (rev s).
Proof. intros H; apply Forall_rev; exact H. Qed.

Lemma strip_blank s : blank s -> strip s = [].
Proof.
  intros H. unfold strip, rstrip.
  rewrite (lstrip_blank s H). reflexivity.
Qed.

Lemma strip_nil_blank s : strip s = [] -> blank s.
Proof.
  unfold strip, rstrip. intros H.
  apply (f_equal (@rev char)) in H. rewrite rev_involutive in H. simpl in H.
  apply lstrip_nil_blank in H. apply blank_rev in H.
  rewrite rev_involutive in H.
  destruct (lstrip s) as [|c r] eqn:E.
  - now apply lstrip_nil_blank.
  - apply lstrip_head in E. inversion H; congruence.
Qed.

(** [not text.strip()] holds exactly of the blank texts. *)
Lemma not_strip_iff s : negb (str_truthy (strip s)) = true <-> blank s.
Proof.
  split.
  - intros H. apply strip_nil_blank.
    destruct (strip s); [reflexivity|discriminate].
  - intros H. now rewrite (strip_blank s H).
Qed.

Lemma slice_to_length {A} (l : list A) (m : Z) :
  0 <= m -> Z.of_nat (List.length (slice_to l m)) <= m.
Proof.
  intros Hm. unfold slice_to.
  destruct (0 <=? m) eqn:E; [|apply Z.leb_gt in E; lia].
  pose proof (firstn_le_length (Z.to_nat m) l). lia.
Qed.

Lemma join_cons sep x y r :
  join sep (x :: y :: r) = x ++ sep ++ join sep (y :: r).
Proof. reflexivity. Qed.

(** The [i]-th summary sits in the joined text at [body_offset]: later
    items come later. *)
Lemma join_nth sep xs : forall i s,
  nth_error xs i = Some s ->
  exists pre post,
    join sep xs = pre ++ s ++ post /\
    List.length pre = body_offset sep xs i.
Proof.
  induction xs as [|x r IH]; intros i s H.
  - destruct i; discriminate.
  - destruct i as [|i].
    + simpl in H. injection H as ->.
      exists [], (match r with [] => [] | _ => sep ++ join sep r end).
      split; [|reflexivity].
      destruct r; simpl; [now rewrite app_nil_r|reflexivity].
    + simpl in H. destruct r as [|y r']; [destruct i; discriminate|].
      destruct (IH i s H) as (pre & post & E & L).
      exists (x ++ sep ++ pre), post. split.
      * rewrite join_cons, E. now rewrite <- !app_assoc.
      * rewrite !length_app, L. simpl. lia.
Qed.

Lemma body_offset_increasing sep xs : forall i j,
  (i <= j)%nat -> (body_offset sep xs i <= body_offset sep xs j)%nat.
Proof.
  induction xs as [|x r IH]; intros i j H.
  - destruct i, j; simpl; lia.
  - destruct i, j; simpl; try lia.
    specialize (IH i j). lia.
Qed.

End PyFacts.

(** ** The summarizer *)

Module SummarizerSpec.

Import Summarizer PyFacts.

Lemma calls_app tr tr' : calls (tr ++ tr') = (calls tr + calls tr')%nat.
Proof. unfold calls. now rewrite filter_app, length_app. Qed.

Lemma stdout_of_app tr tr' :
  stdout_of (tr ++ tr') = stdout_of tr ++ stdout_of tr'.
Proof.
  induction tr as [|e r IH]; simpl; [reflexivity|].
  destruct e; auto; rewrite IH; now rewrite <- !app_assoc.
Qed.

(** The two templates part at their sixth character, so no map prompt is
    a reduce prompt. *)
Lemma map_template_head :
  exists rest, map_template = [86; 111; 99; 234; 32; 233]%N ++ rest.
Proof. eexists. vm_compute. reflexivity. Qed.

Lemma reduce_template_head :
  exists rest, reduce_template = [86; 111; 99; 234; 32; 114]%N ++ rest.
Proof. eexists. vm_compute. reflexivity. Qed.

Lemma map_prompt_not_reduce context summaries :
  map_prompt context <> reduce_prompt summaries.
Proof.
  unfold map_prompt, reduce_prompt.
  destruct map_template_head as [r1 ->].
  destruct reduce_template_head as [r2 ->].
  simpl. intros H. discriminate H.
Qed.

Section Runs.

Variable text_splitter : Z -> Z -> option exn.
Variable splitter : Z -> Z -> str -> result (list str).
Variable chat_open_ai : str -> Z -> option exn.
Variable llm : trace -> str -> str -> result str.
Variable dotenv : option exn.
Variable argparse : list str -> parsed.
Variable path_exists : str -> bool.
Variable read_text : str -> result str.
Variable stdout_write : str -> option exn.

Local Abbreviation run_summarize :=
  (summarize_text text_splitter splitter chat_open_ai llm).
Local Abbreviation run_map := (map_stage llm).
Local Abbreviation run_reduce := (reduce_stage llm).

Lemma calls_map_events model docs :
  calls (map_events model docs) = List.length docs.
Proof.
  unfold calls, map_events.
  induction docs as [|d r IH]; simpl; [reflexivity|now rewrite IH].
Qed.

(** A map stage that returns has called the model once per chunk, in chunk
    order, and returns one summary per chunk. *)
Lemma map_stage_ok model : forall docs tr sums tr',
  run_map model docs tr = (Ok sums, tr') ->
  tr' = tr ++ map_events model docs /\ List.length sums = List.length docs.
Proof.
  induction docs as [|d r IH]; intros tr sums tr' H.
  - cbv in H. injection H as <- <-. now rewrite app_nil_r.
  - unfold map_stage in H. simpl in H.
    unfold bind at 1 in H. unfold invoke at 1 in H.
    destruct (llm tr model (map_prompt d)) as [s|e] eqn:E; [|discriminate].
    unfold bind at 1 in H.
    fold (map_stage llm model r) in H.
    destruct (run_map model r (tr ++ [EvInvoke model (map_prompt d)]))
      as [[ss|e] tr2] eqn:E2; [|discriminate].
    unfold ret in H. injection H as <- <-.
    destruct (IH _ _ _ E2) as [-> L]. split.
    + simpl. now rewrite <- app_assoc.
    + simpl. now rewrite L.
Qed.

(** The summaries come back in chunk order: the [i]-th one is the answer
    to the prompt of the [i]-th chunk. *)
Lemma map_stage_order model : forall docs tr sums tr',
  run_map model docs tr = (Ok sums, tr') ->
  forall i d, nth_error docs i = Some d ->
    exists s, nth_error sums i = Some s /\
      llm (tr ++ map_events model (firstn i docs)) model (map_prompt d)
      = Ok s.
Proof.
  induction docs as [|d0 r IH]; intros tr sums tr' H i d Hi.
  - destruct i; discriminate.
  - unfold map_stage in H. simpl in H.
    unfold bind at 1 in H. unfold invoke at 1 in H.
    destruct (llm tr model (map_prompt d0)) as [s0|e] eqn:E; [|discriminate].
    unfold bind at 1 in H.
    fold (map_stage llm model r) in H.
    destruct (run_map model r (tr ++ [EvInvoke model (map_prompt d0)]))
      as [[ss|e] tr2] eqn:E2; [|discriminate].
    unfold ret in H. injection H as <- <-.
    destruct i as [|i].
    + simpl in Hi. injection Hi as <-. exists s0. split; [reflexivity|].
      simpl. now rewrite app_nil_r.
    + simpl in Hi. destruct (IH _ _ _ E2 i d Hi) as (s & Hs & Hl).
      exists s. split; [exact Hs|].
      simpl. rewrite <- app_assoc in Hl. exact Hl.
Qed.

(** The first failing call ends the map stage at once. *)
Lemma map_stage_first_failure model d post e : forall pre tr sums tr1,
  run_map model pre tr = (Ok sums, tr1) ->
  llm tr1 model (map_prompt d) = Raise e ->
  run_map model (pre ++ d :: post) tr
  = (Raise e, tr1 ++ [EvInvoke model (map_prompt d)]).
Proof.
  induction pre as [|p r IH]; intros tr sums tr1 H Hd.
  - cbv in H. injection H as _ <-.
    unfold map_stage. simpl. unfold bind at 1, invoke at 1.
    now rewrite Hd.
  - unfold map_stage in H. simpl in H.
    unfold bind at 1 in H. unfold invoke at 1 in H.
    destruct (llm tr model (map_prompt p)) as [s0|e0] eqn:E; [|discriminate].
    unfold bind at 1 in H.
    fold (map_stage llm model r) in H.
    destruct (run_map model r (tr ++ [EvInvoke model (map_prompt p)]))
      as [[ss|e1] tr2] eqn:E2; [|discriminate].
    unfold ret in H. injection H as _ <-.
    unfold map_stage. simpl.
    unfold bind at 1, invoke at 1. rewrite E.
    unfold bind at 1.
    fold (map_stage llm model (r ++ d :: post)).
    now rewrite (IH _ _ _ E2 Hd).
Qed.

(** A map stage that raises did so at one call, after the calls before it
    had returned. *)
Lemma map_stage_raise_inv model e : forall docs tr tr',
  run_map model docs tr = (Raise e, tr') ->
  exists pre d post sums tr1,
    docs = pre ++ d :: post /\
    run_map model pre tr = (Ok sums, tr1) /\
    llm tr1 model (map_prompt d) = Raise e.
Proof.
  induction docs as [|p r IH]; intros tr tr' H.
  - discriminate H.
  - unfold map_stage in H. simpl in H.
    unfold bind at 1 in H. unfold invoke at 1 in H.
    destruct (llm tr model (map_prompt p)) as [s0|e0] eqn:E.
    + unfold bind at 1 in H. fold (map_stage llm model r) in H.
      destruct (run_map model r (tr ++ [EvInvoke model (map_prompt p)]))
        as [[ss|e1] tr2] eqn:E2; [discriminate H|].
      injection H as -> ->.
      destruct (IH _ _ E2) as (pre & d & post & sums & tr1 & -> & Hp & Hd).
      exists (p :: pre), d, post, (s0 :: sums), tr1.
      split; [reflexivity|]. split; [|exact Hd].
      unfold map_stage. simpl. unfold bind at 1, invoke at 1. rewrite E.
      unfold bind at 1. fold (map_stage llm model pre). now rewrite Hp.
    + injection H as -> _.
      exists [], p, r, [], tr. repeat split. exact E.
Qed.

Lemma create_documents_run cs co text tr :
  create_documents splitter cs co text tr
  = (splitter cs co text, tr ++ [EvSplit cs co text]).
Proof. reflexivity. Qed.

(** How a run on a text that is not blank starts: the split, then the
    client, then the map stage. *)
Lemma summarize_text_unfold text model cs co docs :
  str_truthy (strip text) = true ->
  text_splitter cs co = None ->
  splitter cs co text = Ok docs ->
  chat_open_ai model 0 = None ->
  run_summarize text model cs co []
  = (partial_summaries <- run_map model docs ;;
     final_summary <- run_reduce model partial_summaries ;;
     ret final_summary) [EvSplit cs co text; EvChatOpenAI model 0].
Proof.
  intros Ht Hi Hs Hc. unfold summarize_text. rewrite Ht. cbn [negb].
  unfold bind at 1. unfold RecursiveCharacterTextSplitter. rewrite Hi.
  unfold bind at 1. rewrite create_documents_run, Hs.
  unfold bind at 1. unfold ChatOpenAI. rewrite Hc. reflexivity.
Qed.

(** The first check of [summarize_text] on a blank text. *)
Lemma blank_text_raises text model cs co tr :
  blank text ->
  run_summarize text model cs co tr
  = (Raise (Exn ValueError (lit "Input text is empty.")), tr).
Proof.
  intros H. unfold summarize_text.
  apply not_strip_iff in H. rewrite H. reflexivity.
Qed.

(** C1: a text that is empty or whitespace-only makes [summarize_text]
    raise [ValueError] ("Input text is empty.") and leaves the trace as it
    was: no split, no client, no completion call. *)
Theorem summarize_text_blank_input text model cs co tr :
  blank text ->
  run_summarize text model cs co tr
  = (Raise (Exn ValueError (lit "Input text is empty.")), tr).
Proof.
  intros H. unfold summarize_text.
  apply not_strip_iff in H. rewrite H. reflexivity.
Qed.

(** C4, as the code has it: the Reduce Stage joins the partial summaries,
    untagged and in list order, with a blank line between them, appends the
    result to the fixed instruction text and calls the model exactly once
    with that prompt; the answer of that call is the final summary.  The
    [i]-th summary starts at [body_offset], which grows with [i]. *)
Theorem reduce_stage_joins_in_order model partial_summaries tr :
  partial_summaries <> [] ->
  let body := join summaries_sep partial_summaries in
  let prompt := reduce_template ++ body in
  run_reduce model partial_summaries tr
  = (llm tr model prompt, tr ++ [EvInvoke model prompt]) /\
  calls (snd (run_reduce model partial_summaries tr)) = S (calls tr) /\
  (forall i s, nth_error partial_summaries i = Some s ->
     exists pre post,
       body = pre ++ s ++ post /\
       List.length pre = body_offset summaries_sep partial_summaries i) /\
  (forall i j, (i <= j)%nat ->
     (body_offset summaries_sep partial_summaries i
      <= body_offset summaries_sep partial_summaries j)%nat).
Proof.
  intros _ body prompt. repeat split.
  - unfold reduce_stage, invoke. simpl. rewrite calls_app.
    unfold calls at 2. simpl. lia.
  - intros i s H. apply join_nth. exact H.
  - intros i j H. apply body_offset_increasing. exact H.
Qed.

(** C5: when the model raises on the prompt of one chunk, after answering
    the chunks before it (the splitter and the client having been built),
    the run ends with that very exception; the trace
    holds one call per chunk up to the failing one, each issued once, and
    no call with a reduce prompt. *)
Theorem map_failure_aborts_run text model cs co docs pre d post sums tr1 e :
  str_truthy (strip text) = true ->
  text_splitter cs co = None ->
  splitter cs co text = Ok docs ->
  chat_open_ai model 0 = None ->
  docs = pre ++ d :: post ->
  run_map model pre [EvSplit cs co text; EvChatOpenAI model 0]
  = (Ok sums, tr1) ->
  llm tr1 model (map_prompt d) = Raise e ->
  exists tr,
    run_summarize text model cs co [] = (Raise e, tr) /\
    tr = [EvSplit cs co text; EvChatOpenAI model 0]
         ++ map_events model (pre ++ [d]) /\
    calls tr = S (List.length pre) /\
    (forall m summaries, ~ In (EvInvoke m (reduce_prompt summaries)) tr).
Proof.
  intros Ht Hi Hs Hc -> Hpre Hd.
  pose proof (map_stage_first_failure model d post e _ _ _ _ Hpre Hd) as Hf.
  destruct (map_stage_ok _ _ _ _ _ Hpre) as [-> _].
  eexists. split; [|split; [|split]].
  - rewrite (summarize_text_unfold _ _ _ _ _ Ht Hi Hs Hc).
    unfold bind at 1. rewrite Hf. reflexivity.
  - unfold map_events. rewrite map_app. reflexivity.
  - rewrite !calls_app.
    rewrite calls_map_events. unfold calls. simpl. lia.
  - intros m summaries Hin.
    rewrite <- app_assoc in Hin.
    apply in_app_or in Hin. destruct Hin as [Hin|Hin].
    + simpl in Hin. destruct Hin as [H|[H|[]]]; discriminate H.
    + assert (Hin' : In (EvInvoke m (reduce_prompt summaries))
                        (map_events model (pre ++ [d]))).
      { unfold map_events in *. rewrite map_app. exact Hin. }
      unfold map_events in Hin'. apply in_map_iff in Hin'.
      destruct Hin' as (x & Hx & _).
      apply (map_prompt_not_reduce x summaries).
      exact (f_equal (fun ev => match ev with
                                | EvInvoke _ p => p
                                | _ => []
                                end) Hx).
Qed.

(** A run that succeeds: one call per chunk in chunk order, then the one
    reduce call, whose answer is returned. *)
Lemma summarize_text_success text model cs co docs sums tr1 :
  str_truthy (strip text) = true ->
  text_splitter cs co = None ->
  splitter cs co text = Ok docs ->
  chat_open_ai model 0 = None ->
  run_map model docs [EvSplit cs co text; EvChatOpenAI model 0]
  = (Ok sums, tr1) ->
  let prompt := reduce_prompt (reduce_body sums) in
  run_summarize text model cs co []
  = (llm tr1 model prompt, tr1 ++ [EvInvoke model prompt]) /\
  tr1 = [EvSplit cs co text; EvChatOpenAI model 0] ++ map_events model docs /\
  calls (tr1 ++ [EvInvoke model prompt]) = S (List.length docs).
Proof.
  intros Ht Hi Hs Hc Hm prompt.
  destruct (map_stage_ok _ _ _ _ _ Hm) as [E _].
  split; [|split].
  - rewrite (summarize_text_unfold _ _ _ _ _ Ht Hi Hs Hc).
    unfold bind at 1. rewrite Hm. unfold bind at 1.
    unfold reduce_stage, invoke. fold prompt.
    destruct (llm tr1 model prompt); reflexivity.
  - exact E.
  - rewrite E, !calls_app, calls_map_events. unfold calls. simpl. lia.
Qed.

(** *** [summarize_text] writes nothing to standard output *)

Lemma quiet_ret {A} (a : A) : quiet (ret a).
Proof. intros tr r tr' H. now injection H as _ <-. Qed.

Lemma quiet_raise {A} (e : exn) : quiet (@raise A e).
Proof. intros tr r tr' H. now injection H as _ <-. Qed.

Lemma quiet_bind {A B} (c : M A) (k : A -> M B) :
  quiet c -> (forall a, quiet (k a)) -> quiet (bind c k).
Proof.
  intros Hc Hk tr r tr' H. unfold bind in H.
  destruct (c tr) as [[a|e] tr1] eqn:E.
  - rewrite (Hk a _ _ _ H). exact (Hc _ _ _ E).
  - injection H as _ <-. exact (Hc _ _ _ E).
Qed.

Lemma quiet_invoke model prompt : quiet (invoke llm model prompt).
Proof.
  intros tr r tr' H. unfold invoke in H. injection H as _ <-.
  rewrite stdout_of_app. simpl. now rewrite app_nil_r.
Qed.

Lemma quiet_create_documents cs co text :
  quiet (create_documents splitter cs co text).
Proof.
  intros tr r tr' H. unfold create_documents in H. injection H as _ <-.
  rewrite stdout_of_app. simpl. now rewrite app_nil_r.
Qed.

Lemma quiet_ChatOpenAI model t : quiet (ChatOpenAI chat_open_ai model t).
Proof.
  intros tr r tr' H. unfold ChatOpenAI in H. injection H as _ <-.
  rewrite stdout_of_app. simpl. now rewrite app_nil_r.
Qed.

Lemma quiet_mapM {A B} (f : A -> M B) xs :
  (forall x, quiet (f x)) -> quiet (mapM f xs).
Proof.
  intros Hf. induction xs as [|x r IH]; simpl.
  - apply quiet_ret.
  - apply quiet_bind; [apply Hf|]. intros y.
    apply quiet_bind; [exact IH|]. intros ys. apply quiet_ret.
Qed.

Lemma quiet_splitter cs co :
  quiet (RecursiveCharacterTextSplitter text_splitter cs co).
Proof.
  intros tr r tr' H. unfold RecursiveCharacterTextSplitter in H.
  now injection H as _ <-.
Qed.

Lemma quiet_summarize_text text model cs co :
  quiet (run_summarize text model cs co).
Proof.
  unfold summarize_text.
  destruct (negb (str_truthy (strip text))); [apply quiet_raise|].
  apply quiet_bind; [apply quiet_splitter|]. intros _.
  apply quiet_bind; [apply quiet_create_documents|]. intros docs.
  apply quiet_bind; [apply quiet_ChatOpenAI|]. intros _.
  apply quiet_bind.
  { unfold map_stage. apply quiet_mapM. intros x. apply quiet_invoke. }
  intros sums. apply quiet_bind; [apply quiet_invoke|].
  intros s. apply quiet_ret.
Qed.

Lemma exc_line_message c m x :
  exc_line (Exn c (x :: m)) = class_name c ++ lit ": " ++ x :: m.
Proof. reflexivity. Qed.

Local Abbreviation run_main :=
  (main text_splitter splitter chat_open_ai llm dotenv argparse path_exists
     read_text stdout_write).
Local Abbreviation run_program :=
  (run_script text_splitter splitter chat_open_ai llm dotenv argparse
     path_exists read_text stdout_write).

(** [main] once [load_dotenv] has returned and the parser has given its
    namespace. *)
Lemma main_parsed argv args :
  dotenv = None ->
  argparse argv = Parsed args ->
  run_main argv []
  = (if negb (path_exists (input_file args)) then
       raise (Exn FileNotFoundError
                (lit "File not found: " ++ input_file args))
     else
       text <- (fun tr => (read_text (input_file args), tr)) ;;
       summary <- run_summarize text (model args) (chunk_size args)
                    (chunk_overlap args) ;;
       print stdout_write summary) [].
Proof.
  intros Hd Hp. unfold main.
  unfold bind at 1. unfold load_dotenv. rewrite Hd.
  unfold bind at 1. unfold parse_args. rewrite Hp. reflexivity.
Qed.

(** What the interpreter makes of an exception of [main] that is no
    [SystemExit]. *)
Lemma run_script_raise argv e tr :
  run_main argv [] = (Raise e, tr) ->
  is_system_exit e = false ->
  run_program argv
  = {| exit_code := 1; stdout := stdout_of tr;
       stderr_last_line := Some (exc_line e) |}.
Proof.
  intros H He. unfold run_script. rewrite H.
  destruct e as [c m]. destruct c; try reflexivity. discriminate He.
Qed.

(** C8, as the code has it: once the arguments are parsed, the script
    prints the final summary (and a newline) to standard output and exits
    with 0 when [summarize_text] returns and standard output takes the
    summary; when the input file is missing, when the text is blank, and
    when [summarize_text] raises an exception (a provider error among
    others), it prints nothing to standard output and exits with 1, the
    traceback ending in the class and message of the exception. *)
Theorem command_line_exit_status argv args :
  dotenv = None ->
  argparse argv = Parsed args ->
  (forall text summary tr,
     path_exists (input_file args) = true ->
     read_text (input_file args) = Ok text ->
     run_summarize text (model args) (chunk_size args) (chunk_overlap args) []
     = (Ok summary, tr) ->
     stdout_write summary = None ->
     run_program argv
     = {| exit_code := 0; stdout := summary ++ [10%N];
          stderr_last_line := None |}) /\
  (path_exists (input_file args) = false ->
     run_program argv
     = {| exit_code := 1; stdout := [];
          stderr_last_line :=
            Some (lit "FileNotFoundError: File not found: "
                  ++ input_file args) |}) /\
  (forall text,
     path_exists (input_file args) = true ->
     read_text (input_file args) = Ok text ->
     blank text ->
     run_program argv
     = {| exit_code := 1; stdout := [];
          stderr_last_line := Some (lit "ValueError: Input text is empty.") |})
  /\
  (forall text e tr,
     path_exists (input_file args) = true ->
     read_text (input_file args) = Ok text ->
     run_summarize text (model args) (chunk_size args) (chunk_overlap args) []
     = (Raise e, tr) ->
     is_system_exit e = false ->
     run_program argv
     = {| exit_code := 1; stdout := [];
          stderr_last_line := Some (exc_line e) |}).
Proof.
  intros Hd Hp.
  assert (Hraise : forall text e tr,
     path_exists (input_file args) = true ->
     read_text (input_file args) = Ok text ->
     run_summarize text (model args) (chunk_size args) (chunk_overlap args) []
     = (Raise e, tr) ->
     is_system_exit e = false ->
     run_program argv
     = {| exit_code := 1; stdout := [];
          stderr_last_line := Some (exc_line e) |}).
  { intros text e tr He Hr Hs Hx.
    assert (Hm : run_main argv [] = (Raise e, tr)).
    { rewrite (main_parsed _ _ Hd Hp), He. cbn [negb].
      unfold bind at 1. rewrite Hr. unfold bind at 1. now rewrite Hs. }
    rewrite (run_script_raise _ _ _ Hm Hx).
    now rewrite (quiet_summarize_text _ _ _ _ _ _ _ Hs). }
  split; [|split; [|split]].
  - intros text summary tr He Hr Hs Hw.
    unfold run_script. rewrite (main_parsed _ _ Hd Hp), He. cbn [negb].
    unfold bind at 1. rewrite Hr. unfold bind at 1. rewrite Hs.
    unfold print. rewrite Hw.
    rewrite stdout_of_app, (quiet_summarize_text _ _ _ _ _ _ _ Hs).
    reflexivity.
  - intros He.
    assert (Hm : run_main argv []
                 = (Raise (Exn FileNotFoundError
                             (lit "File not found: " ++ input_file args)),
                    [])).
    { rewrite (main_parsed _ _ Hd Hp), He. reflexivity. }
    now rewrite (run_script_raise _ _ _ Hm eq_refl).
  - intros text He Hr Hb.
    exact (Hraise text _ [] He Hr
             (blank_text_raises text _ _ _ [] Hb) eq_refl).
  - exact Hraise.
Qed.

End Runs.

(** *** Runs on concrete inputs *)

Import Double.

Example reduce_body_two :
  reduce_body [lit "a"; lit "b"] = lit "a

b".
Proof. reflexivity. Qed.

(** C4 fails as stated: for the single summary "a" the prompt body is "a"
    itself, which no tagging of the summaries can produce, since a tagged
    item is longer than the summary it tags. *)
Lemma reduce_body_carries_no_tag :
  ~ (exists sep tag,
       TaggedSpec.position_tag tag /\
       reduce_body [lit "a"] = TaggedSpec.tagged_body sep tag [lit "a"]).
Proof.
  intros (sep & tag & Ht & H).
  specialize (Ht 0%nat (lit "a")).
  unfold TaggedSpec.tagged_body in H. simpl in H.
  rewrite <- H in Ht. vm_compute in Ht. lia.
Qed.

(** C8 fails as stated: the model answers with an e-acute, so a final
    summary is there, but a standard output limited to ASCII cannot take
    it: [print] raises, nothing is printed and the script exits with 1. *)
Lemma summary_lost_on_ascii_stdout :
  exists tr,
    summarize_text splitter_ok (fixed_splitter [lit "um"]) client_ok
      (fixed_llm (lit "é")) (lit "um") default_model default_chunk_size
      default_chunk_overlap []
    = (Ok (lit "é"), tr) /\
    run_script splitter_ok (fixed_splitter [lit "um"]) client_ok
      (fixed_llm (lit "é")) dotenv_ok (parse_to sample_args) any_file
      (file_with (lit "um")) ascii_stdout sample_argv
    = {| exit_code := 1; stdout := [];
         stderr_last_line :=
           Some (lit "UnicodeEncodeError: 'ascii' codec can't encode character '\xe9' in position 0: ordinal not in range(128)") |}.
Proof.
  exists [EvSplit 2000 200 (lit "um"); EvChatOpenAI default_model 0;
          EvInvoke default_model (map_prompt (lit "um"));
          EvInvoke default_model (reduce_prompt (lit "é"))].
  split; vm_compute; reflexivity.
Qed.

Lemma summarize_text_blank_input_witness :
  blank (lit "
  ") /\
  summarize_text splitter_ok (fixed_splitter [lit "x"]) client_ok
    (fixed_llm (lit "r")) (lit "
  ") default_model default_chunk_size default_chunk_overlap []
  = (Raise (Exn ValueError (lit "Input text is empty.")), []).
Proof.
  split.
  - repeat constructor.
  - apply summarize_text_blank_input. repeat constructor.
Defined.

Lemma reduce_stage_joins_in_order_witness :
  [lit "um"; lit "dois"] <> [] /\
  calls (snd (reduce_stage (fixed_llm (lit "r")) default_model
                [lit "um"; lit "dois"] [])) = 1%nat.
Proof.
  split; [discriminate|].
  apply (reduce_stage_joins_in_order (fixed_llm (lit "r")) default_model
           [lit "um"; lit "dois"] []).
  discriminate.
Defined.

Lemma map_failure_aborts_run_witness :
  exists tr,
    summarize_text splitter_ok
      (fixed_splitter [lit "um"; lit "dois"; lit "tres"])
      client_ok (failing_llm 1 rate_limit (lit "r"))
      (lit "um dois tres") default_model 4 1 []
    = (Raise rate_limit, tr) /\
    tr = [EvSplit 4 1 (lit "um dois tres"); EvChatOpenAI default_model 0]
         ++ map_events default_model ([lit "um"] ++ [lit "dois"]) /\
    calls tr = 2%nat /\
    (forall m summaries, ~ In (EvInvoke m (reduce_prompt summaries)) tr).
Proof.
  apply (map_failure_aborts_run splitter_ok
           (fixed_splitter [lit "um"; lit "dois"; lit "tres"])
           client_ok (failing_llm 1 rate_limit (lit "r"))
           (lit "um dois tres") default_model 4 1
           [lit "um"; lit "dois"; lit "tres"]
           [lit "um"] (lit "dois") [lit "tres"] [lit "r"]
           [EvSplit 4 1 (lit "um dois tres"); EvChatOpenAI default_model 0;
            EvInvoke default_model (map_prompt (lit "um"))]);
    reflexivity.
Defined.

Lemma command_line_exit_status_witness :
  run_script splitter_ok (fixed_splitter [lit "um"]) client_ok
    (fixed_llm (lit "r")) dotenv_ok (parse_to sample_args) any_file
    (file_with (lit "um")) utf8_stdout sample_argv
  = {| exit_code := 0; stdout := lit "r" ++ [10%N];
       stderr_last_line := None |} /\
  run_script splitter_ok (fixed_splitter [lit "um"]) client_ok
    (fixed_llm (lit "r")) dotenv_ok (parse_to sample_args) no_files
    (file_with (lit "um")) utf8_stdout sample_argv
  = {| exit_code := 1; stdout := [];
       stderr_last_line :=
         Some (lit "FileNotFoundError: File not found: notas.txt") |} /\
  run_script splitter_ok (fixed_splitter [lit "um"]) client_ok
    (fixed_llm (lit "r")) dotenv_ok (parse_to sample_args) any_file
    (file_with (lit " ")) utf8_stdout sample_argv
  = {| exit_code := 1; stdout := [];
       stderr_last_line := Some (lit "ValueError: Input text is empty.") |} /\
  run_script splitter_ok (fixed_splitter [lit "um"]) client_ok
    (failing_llm 0 rate_limit (lit "r")) dotenv_ok (parse_to sample_args)
    any_file (file_with (lit "um")) utf8_stdout sample_argv
  = {| exit_code := 1; stdout := [];
       stderr_last_line :=
         Some (lit "openai.RateLimitError: Error code: 429") |}.
Proof.
  split; [|split; [|split]].
  - apply (proj1 (command_line_exit_status splitter_ok
                    (fixed_splitter [lit "um"]) client_ok
                    (fixed_llm (lit "r")) dotenv_ok (parse_to sample_args)
                    any_file (file_with (lit "um")) utf8_stdout
                    sample_argv sample_args eq_refl eq_refl)
             (lit "um") (lit "r")
             [EvSplit 2000 200 (lit "um"); EvChatOpenAI default_model 0;
              EvInvoke default_model (map_prompt (lit "um"));
              EvInvoke default_model (reduce_prompt (lit "r"))]);
      reflexivity.
  - apply (proj1 (proj2 (command_line_exit_status splitter_ok
                    (fixed_splitter [lit "um"]) client_ok
                    (fixed_llm (lit "r")) dotenv_ok (parse_to sample_args)
                    no_files (file_with (lit "um")) utf8_stdout
                    sample_argv sample_args eq_refl eq_refl))).
    reflexivity.
  - apply (proj1 (proj2 (proj2 (command_line_exit_status splitter_ok
                    (fixed_splitter [lit "um"]) client_ok
                    (fixed_llm (lit "r")) dotenv_ok (parse_to sample_args)
                    any_file (file_with (lit " ")) utf8_stdout
                    sample_argv sample_args eq_refl eq_refl)))
             (lit " ")); try reflexivity.
    repeat constructor.
  - apply (proj2 (proj2 (proj2 (command_line_exit_status splitter_ok
                    (fixed_splitter [lit "um"]) client_ok
                    (failing_llm 0 rate_limit (lit "r")) dotenv_ok
                    (parse_to sample_args) any_file (file_with (lit "um"))
                    utf8_stdout sample_argv sample_args eq_refl eq_refl)))
             (lit "um") rate_limit
             [EvSplit 2000 200 (lit "um"); EvChatOpenAI default_model 0;
              EvInvoke default_model (map_prompt (lit "um"))]);
      reflexivity.
Defined.

End SummarizerSpec.

(** ** The Scopus search *)

Module ScopusSpec.

Import Scopus Double PyFacts.

Example parse_total_string :
  parse_total ascii_decimal (page_of (JStr (lit "1234")) []) = Ok 1234.
Proof. reflexivity. Qed.

Example parse_total_missing :
  parse_total ascii_decimal (JDict []) = Ok 0.
Proof. reflexivity. Qed.

Example parse_total_not_a_number :
  parse_total ascii_decimal (page_of (JStr (lit "many")) []) = Ok 0.
Proof. reflexivity. Qed.

Example parse_total_infinite :
  parse_total ascii_decimal (page_of (JFloat (S754_infinity false)) [])
  = Raise (Exn OverflowError (lit "cannot convert float infinity to integer")).
Proof. reflexivity. Qed.

Example search_two_pages :
  search_scopus ascii_decimal two_per_page (lit "k") (lit "q") 2 4
  = Ok {| total_results := 5;
          entries := JList [JInt 0; JInt 1; JInt 2; JInt 3] |}.
Proof. reflexivity. Qed.

Example search_truncates :
  search_scopus ascii_decimal (one_page (page_of (JInt 3) three_entries))
    (lit "k") (lit "q") 25 2
  = Ok {| total_results := 3; entries := JList [titled "A"; titled "B"] |}.
Proof. reflexivity. Qed.

(** C10 fails as stated: a dictionary payload whose "search-results" is
    null makes [parse_total] raise [AttributeError]; the [try] covers the
    conversion only. *)
Lemma parse_total_raises_on_null_results :
  parse_total ascii_decimal (JDict [(lit "search-results", JNull)])
  = Raise (Exn AttributeError
             (lit "'NoneType' object has no attribute 'get'")).
Proof. reflexivity. Qed.

Section Web.

Variable str_to_int : str -> option Z.

(** [int] raises nothing but [TypeError] and [ValueError], except on an
    infinite float. *)
Lemma py_int_raises raw e :
  (forall s, raw <> JFloat (S754_infinity s)) ->
  py_int str_to_int raw = Raise e ->
  exn_class e = TypeError \/ exn_class e = ValueError.
Proof.
  intros Hinf H. destruct raw as [|b|z|f|s|l|d]; simpl in H;
    try discriminate H; try (injection H as <-; simpl; tauto).
  - destruct f as [sg|sg| |sg m ex]; try discriminate H.
    + now destruct (Hinf sg).
    + injection H as <-. simpl; tauto.
  - destruct (str_to_int s); [discriminate H|].
    injection H as <-. simpl; tauto.
Qed.

(** C10, as the code has it: on a dictionary payload whose
    "search-results" is absent or a dictionary, and whose total is not an
    infinite float, [parse_total] returns: 0 when the total is missing or
    [int] rejects it, and [int] of the total otherwise. *)
Theorem parse_total_on_dict_results d sr :
  dict_get d search_results_key (JDict []) = JDict sr ->
  let raw := dict_get sr total_results_key (JInt 0) in
  (forall s, raw <> JFloat (S754_infinity s)) ->
  (exists z, parse_total str_to_int (JDict d) = Ok z) /\
  (dict_lookup sr total_results_key = None ->
     parse_total str_to_int (JDict d) = Ok 0) /\
  (forall e, py_int str_to_int raw = Raise e ->
     parse_total str_to_int (JDict d) = Ok 0) /\
  (forall z, py_int str_to_int raw = Ok z ->
     parse_total str_to_int (JDict d) = Ok z).
Proof.
  intros Hsr raw Hinf.
  assert (E : parse_total str_to_int (JDict d)
              = match py_int str_to_int raw with
                | Ok z => Ok z
                | Raise (Exn TypeError _) => Ok 0
                | Raise (Exn ValueError _) => Ok 0
                | Raise e => Raise e
                end).
  { unfold parse_total, raw_total. simpl. rewrite Hsr. reflexivity. }
  assert (Hr : forall e, py_int str_to_int raw = Raise e ->
                 parse_total str_to_int (JDict d) = Ok 0).
  { intros e He. rewrite E, He.
    destruct (py_int_raises raw e Hinf He) as [Hc|Hc];
      destruct e as [c m]; simpl in Hc; subst c; reflexivity. }
  split; [|split; [|split]].
  - destruct (py_int str_to_int raw) as [z|e] eqn:Hp.
    + exists z. now rewrite E.
    + exists 0. now apply (Hr e).
  - intros Hmiss. rewrite E. unfold raw, dict_get. now rewrite Hmiss.
  - exact Hr.
  - intros z Hz. now rewrite E, Hz.
Qed.

Lemma slice_len entries m sliced :
  slice entries m = Ok sliced -> 0 <= m ->
  exists n, py_len sliced = Some n /\ Z.of_nat n <= m.
Proof.
  intros H Hm. destruct entries as [|b|z|f|s|l|d]; simpl in H;
    try discriminate H; injection H as <-; simpl; eexists;
    (split; [reflexivity|now apply slice_to_length]).
Qed.

Variable get_page : str -> str -> Z -> Z -> result json.

(** C9, as the code has it: when a call succeeds and
    min(total, max_results) is not negative, the entries returned are at
    most that many, the total being the one [parse_total] reads from the
    first page. *)
Theorem search_scopus_entries_capped api_key query count max_results r :
  search_scopus str_to_int get_page api_key query count max_results = Ok r ->
  0 <= Z.min (total_results r) max_results ->
  (exists payload,
     get_page api_key query count 0 = Ok payload /\
     parse_total str_to_int payload = Ok (total_results r)) /\
  (exists n,
     py_len (entries r) = Some n /\
     Z.of_nat n <= Z.min (total_results r) max_results).
Proof.
  unfold search_scopus. intros H Hm.
  destruct (get_page api_key query count 0) as [payload|] eqn:Hp;
    [|discriminate H].
  cbn [rbind] in H.
  destruct (parse_total str_to_int payload) as [total|] eqn:Ht;
    [|discriminate H].
  cbn [rbind] in H.
  destruct (page_entries payload) as [first|] eqn:He; [|discriminate H].
  cbn [rbind] in H.
  destruct (range count (Z.min total max_results) count) as [starts|];
    [|discriminate H].
  cbn [rbind] in H.
  destruct (fetch_pages get_page api_key query count starts first)
    as [all|] eqn:Hf; [|discriminate H].
  cbn [rbind] in H.
  destruct (slice all (Z.min total max_results)) as [sliced|] eqn:Hs;
    [|discriminate H].
  cbn [rbind] in H. injection H as <-. simpl in *.
  split.
  - exists payload. split; [reflexivity|exact Ht].
  - exact (slice_len _ _ _ Hs Hm).
Qed.

End Web.

(** C9 fails as stated: a first page that reports a total of -1 leaves
    two of its three entries, more than min(-1, 25). *)
Lemma search_scopus_negative_total :
  exists r n,
    search_scopus ascii_decimal
      (one_page (page_of (JInt (-1)) three_entries)) (lit "k") (lit "q") 25 25
    = Ok r /\
    py_len (entries r) = Some n /\
    ~ (Z.of_nat n <= Z.min (total_results r) 25).
Proof.
  eexists. exists 2%nat. split; [reflexivity|].
  split; [reflexivity|]. vm_compute. intros H. apply H. reflexivity.
Qed.

Lemma parse_total_on_dict_results_witness :
  parse_total ascii_decimal (page_of (JStr (lit "42")) []) = Ok 42.
Proof.
  apply (parse_total_on_dict_results ascii_decimal
           [(lit "search-results",
             JDict [(lit "opensearch:totalResults", JStr (lit "42"));
                    (lit "entry", JList [])])]
           [(lit "opensearch:totalResults", JStr (lit "42"));
            (lit "entry", JList [])]).
  - reflexivity.
  - intros s H. discriminate H.
  - reflexivity.
Defined.

Lemma search_scopus_entries_capped_witness :
  exists n,
    py_len (JList [titled "A"; titled "B"]) = Some n /\
    Z.of_nat n <= Z.min 3 2.
Proof.
  apply (search_scopus_entries_capped ascii_decimal
           (one_page (page_of (JInt 3) three_entries))
           (lit "k") (lit "q") 25 2
           {| total_results := 3;
              entries := JList [titled "A"; titled "B"] |}).
  - reflexivity.
  - vm_compute. discriminate.
Defined.

End ScopusSpec.

(** ** The title terms *)

Module TermsSpec.

Import Scopus Terms Double.

Lemma str_eqb_eq a : forall b, str_eqb a b = true <-> a = b.
Proof.
  induction a as [|x a IH]; intros [|y b]; simpl; split; intros H;
    try reflexivity; try discriminate.
  - apply andb_true_iff in H. destruct H as [Hx Hr].
    apply N.eqb_eq in Hx. apply IH in Hr. now subst.
  - injection H as -> ->. apply andb_true_iff. split.
    + apply N.eqb_refl.
    + now apply IH.
Qed.

Lemma str_eqb_refl a : str_eqb a a = true.
Proof. now apply str_eqb_eq. Qed.

Lemma str_eqb_neq a b : a <> b -> str_eqb a b = false.
Proof.
  intros H. destruct (str_eqb a b) eqn:E; [|reflexivity].
  apply str_eqb_eq in E. contradiction.
Qed.

Lemma str_eqb_sym a b : str_eqb a b = str_eqb b a.
Proof.
  destruct (str_eqb a b) eqn:E.
  - apply str_eqb_eq in E. subst. now rewrite str_eqb_refl.
  - destruct (str_eqb b a) eqn:E'; [|reflexivity].
    apply str_eqb_eq in E'. subst. now rewrite str_eqb_refl in E.
Qed.

(** *** The tokens of a text *)

Lemma close_run_terms run :
  Forall (fun c => is_letter c = true) run -> Forall is_term (close_run run).
Proof.
  intros H. unfold close_run.
  destruct (3 <=? List.length run)%nat eqn:E; constructor; [|constructor].
  split.
  - rewrite length_rev. now apply Nat.leb_le.
  - now apply Forall_rev.
Qed.

Lemma scan_terms s : forall run,
  Forall (fun c => is_letter c = true) run -> Forall is_term (scan s run).
Proof.
  induction s as [|c r IH]; intros run H; simpl.
  - now apply close_run_terms.
  - destruct (is_letter c) eqn:E.
    + apply IH. now constructor.
    + apply Forall_app. split; [now apply close_run_terms|].
      apply IH. constructor.
Qed.

Lemma findall_terms s : Forall is_term (findall s).
Proof. apply scan_terms. constructor. Qed.

(** *** The counter *)

Lemma value_incr counter token k :
  value (incr counter token) k
  = value counter k + (if str_eqb token k then 1 else 0).
Proof.
  induction counter as [|[k0 n] r IH]; simpl.
  - destruct (str_eqb token k); lia.
  - destruct (str_eqb k0 token) eqn:E; simpl.
    + apply str_eqb_eq in E. subst k0.
      destruct (str_eqb token k); lia.
    + destruct (str_eqb k0 k) eqn:E'.
      * apply str_eqb_eq in E'. subst k0.
        rewrite str_eqb_sym, E. lia.
      * exact IH.
Qed.

Lemma incr_keys counter token k :
  In k (map fst (incr counter token)) <->
  k = token \/ In k (map fst counter).
Proof.
  induction counter as [|[k0 n] r IH]; simpl.
  - intuition.
  - destruct (str_eqb k0 token) eqn:E; simpl.
    + apply str_eqb_eq in E. subst k0. intuition.
    + rewrite IH. intuition.
Qed.

Lemma incr_nodup counter token :
  NoDup (map fst counter) -> NoDup (map fst (incr counter token)).
Proof.
  induction counter as [|[k0 n] r IH]; simpl; intros H.
  - constructor; [intros []|constructor].
  - destruct (str_eqb k0 token) eqn:E; simpl; [exact H|].
    inversion H as [|? ? Hn Hr]; subst. constructor; [|now apply IH].
    rewrite incr_keys. intros [->|Hin]; [|contradiction].
    now rewrite str_eqb_refl in E.
Qed.

Lemma value_in counter k n :
  NoDup (map fst counter) -> In (k, n) counter -> value counter k = n.
Proof.
  induction counter as [|[k0 n0] r IH]; simpl; intros Hd Hin; [easy|].
  inversion Hd as [|? ? Hn Hr]; subst.
  destruct Hin as [E|Hin].
  - injection E as -> ->. now rewrite str_eqb_refl.
  - destruct (str_eqb k0 k) eqn:E; [|now apply IH].
    apply str_eqb_eq in E. subst k0.
    destruct Hn. apply in_map_iff. now exists (k, n).
Qed.

(** The tokens that are counted. *)
Lemma count_tokens_spec tokens : forall counter,
  NoDup (map fst counter) ->
  let counter' := count_tokens counter tokens in
  NoDup (map fst counter') /\
  (forall k, value counter' k
             = value counter k
               + occurrences k (filter (fun t => negb (is_stopword t)) tokens))
  /\
  (forall k, In k (map fst counter') <->
             In k (map fst counter) \/
             (In k tokens /\ is_stopword k = false)).
Proof.
  unfold count_tokens, occurrences.
  induction tokens as [|t r IH]; intros counter Hd; simpl.
  - split; [exact Hd|]. split; [intros k; lia|]. intros k. tauto.
  - destruct (is_stopword t) eqn:Es; simpl.
    + destruct (IH counter Hd) as (H1 & H2 & H3).
      split; [exact H1|]. split; [exact H2|].
      intros k. rewrite H3. split; [tauto|].
      intros [H|[[->|H] Hk]]; [tauto|congruence|tauto].
    + destruct (IH (incr counter t) (incr_nodup _ _ Hd)) as (H1 & H2 & H3).
      split; [exact H1|]. split.
      * intros k. rewrite H2, value_incr.
        rewrite (str_eqb_sym k t).
        destruct (str_eqb t k); simpl; lia.
      * intros k. rewrite H3, incr_keys. split.
        -- intros [[->|H]|[H Hk]]; tauto.
        -- intros [H|[[->|H] Hk]]; tauto.
Qed.

Lemma occurrences_app k a b :
  occurrences k (a ++ b) = occurrences k a + occurrences k b.
Proof. unfold occurrences. rewrite filter_app, length_app. lia. Qed.

Lemma occurrences_nonneg k l : 0 <= occurrences k l.
Proof. unfold occurrences. lia. Qed.

(** For a term that is no stop word, leaving the stop words out changes
    nothing. *)
Lemma occurrences_counted k tokens :
  is_stopword k = false ->
  occurrences k (filter (fun t => negb (is_stopword t)) tokens)
  = occurrences k tokens.
Proof.
  intros Hk. unfold occurrences. f_equal. f_equal.
  induction tokens as [|t r IH]; simpl; [reflexivity|].
  destruct (is_stopword t) eqn:Es; simpl.
  - destruct (str_eqb k t) eqn:E; [|exact IH].
    apply str_eqb_eq in E. congruence.
  - now rewrite IH.
Qed.

Lemma occurrences_in k tokens : In k tokens -> 1 <= occurrences k tokens.
Proof.
  intros H. unfold occurrences.
  assert (Hin : In k (filter (str_eqb k) tokens)).
  { apply filter_In. split; [exact H|apply str_eqb_refl]. }
  destruct (filter (str_eqb k) tokens); [destruct Hin|simpl; lia].
Qed.

(** *** The sort *)

Lemma insert_desc_perm x l : Permutation (insert_desc x l) (x :: l).
Proof.
  induction l as [|y r IH]; simpl; [reflexivity|].
  destruct (snd y <=? snd x); [reflexivity|].
  rewrite IH. apply perm_swap.
Qed.

Lemma sort_desc_perm l : Permutation (sort_desc l) l.
Proof.
  induction l as [|x r IH]; simpl; [reflexivity|].
  rewrite insert_desc_perm. now constructor.
Qed.

Lemma insert_desc_sorted x l :
  StronglySorted falling l -> StronglySorted falling (insert_desc x l).
Proof.
  induction l as [|y r IH]; simpl; intros H.
  - constructor; constructor.
  - inversion H as [|? ? Hr Hy]; subst.
    destruct (snd y <=? snd x) eqn:E.
    + apply Z.leb_le in E. constructor; [exact H|].
      constructor; [exact E|].
      eapply Forall_impl; [|exact Hy]. unfold falling. intros z Hz. lia.
    + apply Z.leb_gt in E. constructor; [now apply IH|].
      apply Forall_forall. intros z Hz.
      apply (Permutation_in _ (insert_desc_perm x r)) in Hz.
      destruct Hz as [<-|Hz].
      * unfold falling. lia.
      * rewrite Forall_forall in Hy. now apply Hy.
Qed.

Lemma sort_desc_sorted l : StronglySorted falling (sort_desc l).
Proof.
  induction l as [|x r IH]; simpl; [constructor|].
  now apply insert_desc_sorted.
Qed.

Lemma firstn_in {A} n (l : list A) x : In x (firstn n l) -> In x l.
Proof.
  intros H. rewrite <- (firstn_skipn n l). apply in_or_app. now left.
Qed.

Lemma firstn_sorted n : forall l,
  StronglySorted falling l -> StronglySorted falling (firstn n l).
Proof.
  induction n as [|n IH]; intros l H; simpl; [constructor|].
  destruct l as [|x r]; [constructor|].
  inversion H as [|? ? Hr Hx]; subst. constructor; [now apply IH|].
  apply Forall_forall. intros z Hz. apply firstn_in in Hz.
  rewrite Forall_forall in Hx. now apply Hx.
Qed.

(** In a sorted list, what comes first is not below what comes later. *)
Lemma sorted_app_falling l1 : forall l2 a b,
  StronglySorted falling (l1 ++ l2) -> In a l1 -> In b l2 -> falling a b.
Proof.
  induction l1 as [|x r IH]; intros l2 a b H Ha Hb; [destruct Ha|].
  simpl in H. inversion H as [|? ? Hr Hx]; subst.
  destruct Ha as [<-|Ha].
  - rewrite Forall_forall in Hx. apply Hx. apply in_or_app. now right.
  - now apply (IH l2).
Qed.

Lemma firstn_nodup {A} n : forall l : list A, NoDup l -> NoDup (firstn n l).
Proof.
  induction n as [|n IH]; intros l H; simpl; [constructor|].
  destruct l as [|x r]; [constructor|].
  inversion H as [|? ? Hn Hr]; subst. constructor; [|now apply IH].
  intros Hin. apply Hn. now apply firstn_in in Hin.
Qed.

Lemma most_common_in counter n row :
  In row (most_common counter n) -> In row counter.
Proof.
  unfold most_common. destruct (n <=? 0); [intros []|].
  intros H. apply firstn_in in H.
  now apply (Permutation_in _ (sort_desc_perm counter)).
Qed.

Section Lower.

Variable lower : str -> str.

Local Abbreviation counted :=
  (filter (fun t => negb (is_stopword t))).

Lemma count_texts_spec texts : forall counter,
  NoDup (map fst counter) ->
  let counter' :=
    fold_left (fun c text => count_tokens c (findall (lower text)))
              texts counter in
  let tokens := flat_map (fun text => findall (lower text)) texts in
  NoDup (map fst counter') /\
  (forall k, value counter' k
             = value counter k + occurrences k (counted tokens)) /\
  (forall k, In k (map fst counter') <->
             In k (map fst counter) \/
             (In k tokens /\ is_stopword k = false)).
Proof.
  induction texts as [|text r IH]; intros counter Hd; simpl.
  - split; [exact Hd|]. split; [intros k; unfold occurrences; simpl; lia|].
    intros k. tauto.
  - destruct (count_tokens_spec (findall (lower text)) counter Hd)
      as (D1 & V1 & K1).
    destruct (IH _ D1) as (D2 & V2 & K2).
    split; [exact D2|]. split.
    + intros k. rewrite V2, V1, filter_app, occurrences_app. lia.
    + intros k. rewrite K2, K1, in_app_iff. tauto.
Qed.

(** The counter after the loops: one key per term seen that is no stop
    word, holding the number of times the term was seen. *)
Lemma count_terms_spec series :
  NoDup (map fst (count_terms lower series)) /\
  (forall k n, In (k, n) (count_terms lower series) ->
     In k (all_tokens lower series) /\ is_stopword k = false /\
     n = occurrences k (all_tokens lower series)) /\
  (forall k, In k (all_tokens lower series) -> is_stopword k = false ->
     In (k, occurrences k (all_tokens lower series))
        (count_terms lower series)).
Proof.
  destruct (count_texts_spec (dropna series) [] (NoDup_nil _))
    as (D & V & K).
  fold (count_terms lower series) in D, V, K.
  fold (all_tokens lower series) in V, K.
  split; [exact D|]. split.
  - intros k n Hin.
    assert (Hk : In k (map fst (count_terms lower series))).
    { apply in_map_iff. now exists (k, n). }
    apply K in Hk. destruct Hk as [[]|[Ht Hs]].
    split; [exact Ht|]. split; [exact Hs|].
    rewrite <- (value_in _ _ _ D Hin), V. simpl.
    now rewrite occurrences_counted.
  - intros k Ht Hs.
    assert (Hk : In k (map fst (count_terms lower series))).
    { apply K. right. now split. }
    apply in_map_iff in Hk. destruct Hk as ([k' n] & E & Hin).
    simpl in E. subst k'.
    assert (En : n = occurrences k (all_tokens lower series)).
    { rewrite <- (value_in _ _ _ D Hin), V. simpl.
      now rewrite occurrences_counted. }
    now rewrite <- En.
Qed.

Lemma all_tokens_terms series : Forall is_term (all_tokens lower series).
Proof.
  unfold all_tokens. induction (dropna series) as [|text r IH]; simpl.
  - constructor.
  - apply Forall_app. split; [apply findall_terms|exact IH].
Qed.

(** Every row of [top_terms] holds a term of the titles: three letters or
    more, letters of the pattern only, and no stop word. *)
Theorem top_terms_rows_are_terms series top_n t n :
  In (t, n) (top_terms lower series top_n) ->
  is_term t /\ is_stopword t = false /\ In t (all_tokens lower series).
Proof.
  intros H. apply most_common_in in H.
  destruct (count_terms_spec series) as (_ & S & _).
  destruct (S t n H) as (Ht & Hs & _).
  split; [|split; [exact Hs|exact Ht]].
  pose proof (all_tokens_terms series) as F.
  rewrite Forall_forall in F. now apply F.
Qed.

(** The frequency of a row is the number of times its term stands among
    the tokens of the titles, and it is at least one. *)
Theorem top_terms_frequency series top_n t n :
  In (t, n) (top_terms lower series top_n) ->
  n = occurrences t (all_tokens lower series) /\ 1 <= n.
Proof.
  intros H. apply most_common_in in H.
  destruct (count_terms_spec series) as (_ & S & _).
  destruct (S t n H) as (Ht & _ & ->).
  split; [reflexivity|now apply occurrences_in].
Qed.

(** [top_terms] returns at most [top_n] rows, and none when [top_n] is not
    positive. *)
Theorem top_terms_length series top_n :
  Z.of_nat (List.length (top_terms lower series top_n)) <= Z.max 0 top_n.
Proof.
  unfold top_terms, most_common.
  destruct (top_n <=? 0) eqn:E; simpl; [lia|].
  apply Z.leb_gt in E.
  pose proof (firstn_le_length (Z.to_nat top_n)
                (sort_desc (count_terms lower series))). lia.
Qed.

(** The rows come by falling frequency: no row has a higher frequency
    than a row before it. *)
Theorem top_terms_falling series top_n :
  StronglySorted falling (top_terms lower series top_n).
Proof.
  unfold top_terms, most_common.
  destruct (top_n <=? 0); [constructor|].
  apply firstn_sorted, sort_desc_sorted.
Qed.

(** No term takes two rows. *)
Theorem top_terms_distinct series top_n :
  NoDup (map fst (top_terms lower series top_n)).
Proof.
  unfold top_terms, most_common.
  destruct (top_n <=? 0); [constructor|].
  rewrite <- firstn_map. apply firstn_nodup.
  destruct (count_terms_spec series) as (D & _ & _).
  apply (Permutation_NoDup
           (Permutation_map fst
              (Permutation_sym (sort_desc_perm (count_terms lower series))))).
  exact D.
Qed.

(** A term that is left out is no more frequent than any row that is
    shown. *)
Theorem top_terms_cutoff series top_n t n t' :
  In (t, n) (top_terms lower series top_n) ->
  In t' (all_tokens lower series) ->
  is_stopword t' = false ->
  ~ In t' (map fst (top_terms lower series top_n)) ->
  occurrences t' (all_tokens lower series) <= n.
Proof.
  intros Hrow Ht' Hs' Hout.
  destruct (count_terms_spec series) as (_ & _ & C).
  pose proof (C t' Ht' Hs') as Hc.
  apply (Permutation_in _
           (Permutation_sym (sort_desc_perm (count_terms lower series))))
    in Hc.
  unfold top_terms, most_common in Hrow, Hout.
  destruct (top_n <=? 0); [destruct Hrow|].
  rewrite <- (firstn_skipn (Z.to_nat top_n)
                (sort_desc (count_terms lower series))) in Hc.
  apply in_app_or in Hc. destruct Hc as [Hc|Hc].
  - destruct Hout. apply in_map_iff.
    now exists (t', occurrences t' (all_tokens lower series)).
  - assert (S : StronglySorted falling
                  (firstn (Z.to_nat top_n)
                     (sort_desc (count_terms lower series))
                   ++ skipn (Z.to_nat top_n)
                        (sort_desc (count_terms lower series)))).
    { rewrite firstn_skipn. apply sort_desc_sorted. }
    exact (sorted_app_falling _ _ _ _ S Hrow Hc).
Qed.

(** When fewer than [top_n] rows come back, every term of the titles that
    is no stop word has its row. *)
Theorem top_terms_complete series top_n t :
  Z.of_nat (List.length (top_terms lower series top_n)) < top_n ->
  In t (all_tokens lower series) ->
  is_stopword t = false ->
  In (t, occurrences t (all_tokens lower series))
     (top_terms lower series top_n).
Proof.
  intros Hlen Ht Hs.
  destruct (count_terms_spec series) as (_ & _ & C).
  pose proof (C t Ht Hs) as Hc.
  apply (Permutation_in _
           (Permutation_sym (sort_desc_perm (count_terms lower series))))
    in Hc.
  unfold top_terms, most_common in *.
  destruct (top_n <=? 0) eqn:E.
  - apply Z.leb_le in E. simpl in Hlen. lia.
  - rewrite firstn_all2; [exact Hc|].
    rewrite length_firstn in Hlen. lia.
Qed.

(** The table is empty exactly when no row was asked for or the titles
    hold nothing but stop words, short words and missing values. *)
Theorem top_terms_empty_iff series top_n :
  top_terms lower series top_n = [] <->
  top_n <= 0 \/
  (forall t, In t (all_tokens lower series) -> is_stopword t = true).
Proof.
  destruct (count_terms_spec series) as (_ & S & C).
  unfold top_terms, most_common.
  destruct (top_n <=? 0) eqn:E.
  - apply Z.leb_le in E. tauto.
  - apply Z.leb_gt in E. split.
    + intros H. right. intros t Ht.
      destruct (is_stopword t) eqn:Es; [reflexivity|].
      pose proof (C t Ht Es) as Hc.
      apply (Permutation_in _
               (Permutation_sym
                  (sort_desc_perm (count_terms lower series)))) in Hc.
      destruct (sort_desc (count_terms lower series)) as [|x r];
        [destruct Hc|].
      destruct (Z.to_nat top_n) eqn:En; [lia|discriminate H].
    + intros [H|H]; [lia|].
      destruct (sort_desc (count_terms lower series)) as [|[k n] r] eqn:Eq;
        [now rewrite firstn_nil|].
      assert (Hin : In (k, n) (count_terms lower series)).
      { apply (Permutation_in _ (sort_desc_perm _)). rewrite Eq. now left. }
      destruct (S k n Hin) as (Ht & Hs & _).
      rewrite (H k Ht) in Hs. discriminate Hs.
Qed.

End Lower.

Lemma top_terms_rows_are_terms_witness :
  is_term (lit "estudo") /\ is_stopword (lit "estudo") = false /\
  In (lit "estudo") (all_tokens latin1_lower sample_titles).
Proof.
  apply (top_terms_rows_are_terms latin1_lower sample_titles default_top_n
           (lit "estudo") 1).
  vm_compute. tauto.
Defined.

Lemma top_terms_frequency_witness :
  2 = occurrences (lit "bibliotecas") (all_tokens latin1_lower sample_titles)
  /\ 1 <= 2.
Proof.
  apply (top_terms_frequency latin1_lower sample_titles default_top_n
           (lit "bibliotecas") 2).
  vm_compute. tauto.
Defined.

Lemma top_terms_cutoff_witness :
  occurrences (lit "estudo") (all_tokens latin1_lower sample_titles) <= 2.
Proof.
  apply (top_terms_cutoff latin1_lower sample_titles 2
           (lit "artificial") 2 (lit "estudo")).
  - vm_compute. tauto.
  - vm_compute. tauto.
  - reflexivity.
  - vm_compute. intros [H|[H|[]]]; discriminate H.
Defined.

Lemma top_terms_complete_witness :
  In (lit "libraries",
      occurrences (lit "libraries") (all_tokens latin1_lower sample_titles))
     (top_terms latin1_lower sample_titles default_top_n).
Proof.
  apply (top_terms_complete latin1_lower sample_titles default_top_n
           (lit "libraries")).
  - vm_compute. reflexivity.
  - vm_compute. tauto.
  - reflexivity.
Defined.

Example findall_ex :
  findall (lit "ia em bibliotecas, 2024: dados-abertos")
  = [lit "bibliotecas"; lit "dados"; lit "abertos"].
Proof. reflexivity. Qed.

Example top_terms_ex :
  top_terms latin1_lower sample_titles default_top_n
  = [(lit "inteligência", 2); (lit "artificial", 2); (lit "bibliotecas", 2);
     (lit "estudo", 1); (lit "libraries", 1)].
Proof. reflexivity. Qed.

Example top_terms_two :
  top_terms latin1_lower sample_titles 2
  = [(lit "inteligência", 2); (lit "artificial", 2)].
Proof. reflexivity. Qed.

End TermsSpec.

(** ** More on the summarizer *)

Module SummarizerMore.

Import Summarizer PyFacts SummarizerSpec Double.

Section Runs.

Variable text_splitter : Z -> Z -> option exn.
Variable splitter : Z -> Z -> str -> result (list str).
Variable chat_open_ai : str -> Z -> option exn.
Variable llm : trace -> str -> str -> result str.
Variable dotenv : option exn.
Variable argparse : list str -> parsed.
Variable path_exists : str -> bool.
Variable read_text : str -> result str.
Variable stdout_write : str -> option exn.

Local Abbreviation run_summarize :=
  (summarize_text text_splitter splitter chat_open_ai llm).
Local Abbreviation run_map := (map_stage llm).
Local Abbreviation run_main :=
  (main text_splitter splitter chat_open_ai llm dotenv argparse path_exists
     read_text stdout_write).
Local Abbreviation run_program :=
  (run_script text_splitter splitter chat_open_ai llm dotenv argparse
     path_exists read_text stdout_write).

Lemma grows_ret {A} (a : A) : grows (ret a).
Proof. intros tr r tr' H. injection H as _ <-. exists []. now rewrite app_nil_r. Qed.

Lemma grows_bind {A B} (c : M A) (k : A -> M B) :
  grows c -> (forall a, grows (k a)) -> grows (bind c k).
Proof.
  intros Hc Hk tr r tr' H. unfold bind in H.
  destruct (c tr) as [[a|e] tr1] eqn:E.
  - destruct (Hc _ _ _ E) as [s1 ->]. destruct (Hk a _ _ _ H) as [s2 ->].
    exists (s1 ++ s2). now rewrite app_assoc.
  - injection H as _ <-. exact (Hc _ _ _ E).
Qed.

Lemma grows_invoke model prompt : grows (invoke llm model prompt).
Proof. intros tr r tr' H. injection H as _ <-. now eexists. Qed.

Lemma grows_ChatOpenAI model t : grows (ChatOpenAI chat_open_ai model t).
Proof. intros tr r tr' H. injection H as _ <-. now eexists. Qed.

Lemma grows_mapM {A B} (f : A -> M B) xs :
  (forall x, grows (f x)) -> grows (mapM f xs).
Proof.
  intros Hf. induction xs as [|x r IH]; simpl.
  - apply grows_ret.
  - apply grows_bind; [apply Hf|]. intros y.
    apply grows_bind; [exact IH|]. intros ys. apply grows_ret.
Qed.

(** The map stage never calls the model more than once per chunk, whether
    it returns or raises. *)
Lemma map_stage_calls_le model : forall docs tr r tr',
  run_map model docs tr = (r, tr') ->
  (calls tr' <= calls tr + List.length docs)%nat.
Proof.
  induction docs as [|d rest IH]; intros tr r tr' H.
  - injection H as _ <-. simpl. lia.
  - unfold map_stage in H. simpl in H.
    unfold bind at 1 in H. unfold invoke at 1 in H.
    assert (Hc : calls (tr ++ [EvInvoke model (map_prompt d)])
                 = S (calls tr)).
    { rewrite calls_app. unfold calls at 2. simpl. lia. }
    destruct (llm tr model (map_prompt d)) as [s0|e0].
    + unfold bind at 1 in H. fold (map_stage llm model rest) in H.
      destruct (run_map model rest (tr ++ [EvInvoke model (map_prompt d)]))
        as [[ss|e1] tr2] eqn:E2.
      * injection H as _ <-. apply IH in E2. simpl. lia.
      * injection H as _ <-. apply IH in E2. simpl. lia.
    + injection H as _ <-. simpl. lia.
Qed.

(** What is left of a run once the text has passed the first check. *)
Lemma summarize_text_steps text model cs co tr :
  str_truthy (strip text) = true ->
  run_summarize text model cs co tr
  = match text_splitter cs co with
    | Some e => (Raise e, tr)
    | None =>
        match splitter cs co text with
        | Raise e => (Raise e, tr ++ [EvSplit cs co text])
        | Ok docs =>
            match chat_open_ai model 0 with
            | Some e =>
                (Raise e, tr ++ [EvSplit cs co text; EvChatOpenAI model 0])
            | None =>
                (partial_summaries <- run_map model docs ;;
                 final_summary <- reduce_stage llm model partial_summaries ;;
                 ret final_summary)
                  (tr ++ [EvSplit cs co text; EvChatOpenAI model 0])
            end
        end
    end.
Proof.
  intros Ht. unfold summarize_text. rewrite Ht. cbn [negb].
  unfold bind at 1. unfold RecursiveCharacterTextSplitter.
  destruct (text_splitter cs co); [reflexivity|].
  unfold bind at 1. rewrite create_documents_run.
  destruct (splitter cs co text) as [docs|e]; [|reflexivity].
  unfold bind at 1. unfold ChatOpenAI.
  rewrite <- app_assoc. simpl.
  destruct (chat_open_ai model 0); reflexivity.
Qed.

(** A completion call is issued only for a text that is not blank, after
    the splitter has been built and has returned its chunks and the client
    has been built. *)
Theorem completion_needs_split_and_client text model cs co tr r tr' :
  run_summarize text model cs co tr = (r, tr') ->
  (calls tr < calls tr')%nat ->
  ~ blank text /\
  text_splitter cs co = None /\
  (exists docs, splitter cs co text = Ok docs) /\
  chat_open_ai model 0 = None.
Proof.
  intros H Hc.
  destruct (negb (str_truthy (strip text))) eqn:Eb.
  - apply not_strip_iff in Eb.
    rewrite (blank_text_raises _ _ _ _ _ _ _ _ tr Eb) in H.
    injection H as _ <-. lia.
  - assert (Ht : str_truthy (strip text) = true)
      by (now destruct (str_truthy (strip text))).
    split.
    { intros Hb. apply not_strip_iff in Hb. congruence. }
    rewrite (summarize_text_steps _ _ _ _ _ Ht) in H.
    destruct (text_splitter cs co).
    { injection H as _ <-. lia. }
    split; [reflexivity|].
    destruct (splitter cs co text) as [docs|e].
    + split; [now exists docs|].
      destruct (chat_open_ai model 0); [|reflexivity].
      injection H as _ <-. rewrite calls_app in Hc.
      unfold calls at 3 in Hc. simpl in Hc. lia.
    + injection H as _ <-. rewrite calls_app in Hc.
      unfold calls at 3 in Hc. simpl in Hc. lia.
Qed.

(** However a run ends, the number of completion calls it has issued is at
    most the number of chunks plus one. *)
Theorem calls_bounded_by_chunks text model cs co docs r tr :
  splitter cs co text = Ok docs ->
  run_summarize text model cs co [] = (r, tr) ->
  (calls tr <= S (List.length docs))%nat.
Proof.
  intros Hs H.
  destruct (negb (str_truthy (strip text))) eqn:Eb.
  - apply not_strip_iff in Eb.
    rewrite (blank_text_raises _ _ _ _ _ _ _ _ [] Eb) in H.
    injection H as _ <-. unfold calls. simpl. lia.
  - assert (Ht : str_truthy (strip text) = true)
      by (now destruct (str_truthy (strip text))).
    rewrite (summarize_text_steps _ _ _ _ _ Ht), Hs in H.
    destruct (text_splitter cs co).
    { injection H as _ <-. unfold calls. simpl. lia. }
    destruct (chat_open_ai model 0).
    + injection H as _ <-. unfold calls. simpl. lia.
    + simpl app in H. unfold bind at 1 in H.
      destruct (run_map model docs [EvSplit cs co text; EvChatOpenAI model 0])
        as [[sums|e] tr1] eqn:Em.
      * apply map_stage_calls_le in Em.
        unfold bind, reduce_stage, invoke, ret in H.
        destruct (llm tr1 model (reduce_prompt (reduce_body sums)));
          injection H as _ <-; rewrite calls_app; unfold calls at 2;
          unfold calls at 2 in Em; simpl in *; lia.
      * injection H as _ <-. apply map_stage_calls_le in Em.
        unfold calls at 2 in Em. simpl in Em. lia.
Qed.

(** Once the splitter is built, it is given the text as it came, not the
    stripped text the first check looked at; that is the first thing a run
    does to the outside. *)
Theorem splitter_gets_raw_text text model cs co tr r tr' :
  ~ blank text ->
  text_splitter cs co = None ->
  run_summarize text model cs co tr = (r, tr') ->
  exists suffix, tr' = tr ++ EvSplit cs co text :: suffix.
Proof.
  intros Hb Hi H.
  assert (Ht : str_truthy (strip text) = true).
  { destruct (negb (str_truthy (strip text))) eqn:E.
    - apply not_strip_iff in E. contradiction.
    - now destruct (str_truthy (strip text)). }
  rewrite (summarize_text_steps _ _ _ _ _ Ht), Hi in H.
  destruct (splitter cs co text) as [docs|e].
  - destruct (chat_open_ai model 0).
    + injection H as _ <-. now eexists.
    + assert (G : grows (partial_summaries <- run_map model docs ;;
                         final_summary <- reduce_stage llm model
                                            partial_summaries ;;
                         ret final_summary)).
      { apply grows_bind.
        - unfold map_stage. apply grows_mapM. intros x. apply grows_invoke.
        - intros sums. apply grows_bind; [apply grows_invoke|].
          intros x. apply grows_ret. }
      destruct (G _ _ _ H) as [suf ->].
      exists (EvChatOpenAI model 0 :: suf).
      now rewrite <- app_assoc.
  - injection H as _ <-. now exists [].
Qed.

(** When the splitter returns no chunk, the model is still asked once, for
    a final summary of nothing: the prompt is the bare instruction text. *)
Theorem no_chunk_still_reduces text model cs co :
  str_truthy (strip text) = true ->
  text_splitter cs co = None ->
  splitter cs co text = Ok [] ->
  chat_open_ai model 0 = None ->
  run_summarize text model cs co []
  = (llm [EvSplit cs co text; EvChatOpenAI model 0] model reduce_template,
     [EvSplit cs co text; EvChatOpenAI model 0;
      EvInvoke model reduce_template]).
Proof.
  intros Ht Hi Hs Hc.
  rewrite (summarize_text_steps _ _ _ _ _ Ht), Hi, Hs, Hc. simpl app.
  unfold bind, map_stage, mapM, ret, reduce_stage, invoke, reduce_prompt,
    reduce_body. simpl join. rewrite app_nil_r.
  destruct (llm [EvSplit cs co text; EvChatOpenAI model 0] model
              reduce_template); reflexivity.
Qed.

Lemma dotenv_cases : dotenv = None \/ exists e, dotenv = Some e.
Proof. destruct dotenv as [e|]; [right; now exists e|now left]. Qed.



(** [main] calls the model only when the arguments parse, the input file
    exists, can be read and holds a text that is not blank. *)
Theorem main_calls_need_text argv r tr :
  run_main argv [] = (r, tr) ->
  (0 < calls tr)%nat ->
  exists args,
    argparse argv = Parsed args /\
    path_exists (input_file args) = true /\
    exists text, read_text (input_file args) = Ok text /\ ~ blank text.
Proof.
  intros H Hc.
  destruct dotenv_cases as [Hd|[e0 Hd]].
  2:{ unfold main, bind, load_dotenv in H. rewrite Hd in H.
      injection H as _ <-. unfold calls in Hc. simpl in Hc. lia. }
  destruct (argparse argv) as [args|code out err] eqn:Hp.
  - rewrite (main_parsed text_splitter splitter chat_open_ai llm dotenv
               argparse path_exists read_text stdout_write argv args
               Hd Hp) in H.
    exists args. split; [reflexivity|].
    destruct (path_exists (input_file args)); cbn [negb] in H.
    + split; [reflexivity|]. unfold bind at 1 in H.
      destruct (read_text (input_file args)) as [text|e].
      * exists text. split; [reflexivity|]. intros Hb.
        unfold bind in H.
        rewrite (blank_text_raises _ _ _ _ _ _ _ _ [] Hb) in H.
        injection H as _ <-. unfold calls in Hc. simpl in Hc. lia.
      * injection H as _ <-. unfold calls in Hc. simpl in Hc. lia.
    + injection H as _ <-. unfold calls in Hc. simpl in Hc. lia.
  - unfold main, bind, load_dotenv, parse_args in H. rewrite Hd, Hp in H.
    injection H as _ <-. unfold calls in Hc. simpl in Hc. lia.
Qed.

End Runs.

Lemma completion_needs_split_and_client_witness :
  ~ blank (lit "um") /\
  splitter_ok 2000 200 = None /\
  (exists docs, fixed_splitter [lit "um"] 2000 200 (lit "um") = Ok docs) /\
  client_ok default_model 0 = None.
Proof.
  apply (completion_needs_split_and_client splitter_ok
           (fixed_splitter [lit "um"])
           client_ok (fixed_llm (lit "r")) (lit "um") default_model 2000 200
           [] (Ok (lit "r"))
           [EvSplit 2000 200 (lit "um"); EvChatOpenAI default_model 0;
            EvInvoke default_model (map_prompt (lit "um"));
            EvInvoke default_model (reduce_prompt (lit "r"))]).
  - reflexivity.
  - vm_compute. lia.
Defined.

Lemma calls_bounded_by_chunks_witness :
  (calls [EvSplit 4 1 (lit "um dois tres"); EvChatOpenAI default_model 0;
          EvInvoke default_model (map_prompt (lit "um"));
          EvInvoke default_model (map_prompt (lit "dois"))]
   <= S (List.length [lit "um"; lit "dois"; lit "tres"]))%nat.
Proof.
  apply (calls_bounded_by_chunks splitter_ok
           (fixed_splitter [lit "um"; lit "dois"; lit "tres"]) client_ok
           (failing_llm 1 rate_limit (lit "r")) (lit "um dois tres")
           default_model 4 1 [lit "um"; lit "dois"; lit "tres"]
           (Raise rate_limit)); reflexivity.
Defined.

Lemma splitter_gets_raw_text_witness :
  exists suffix,
    [EvSplit 2000 200 (lit " um
"); EvChatOpenAI default_model 0;
     EvInvoke default_model (map_prompt (lit "um"));
     EvInvoke default_model (reduce_prompt (lit "r"))]
    = [] ++ EvSplit 2000 200 (lit " um
") :: suffix.
Proof.
  apply (splitter_gets_raw_text splitter_ok (fixed_splitter [lit "um"])
           client_ok (fixed_llm (lit "r")) (lit " um
") default_model 2000 200 [] (Ok (lit "r"))).
  - intros H. apply not_strip_iff in H. vm_compute in H. discriminate H.
  - reflexivity.
  - reflexivity.
Defined.

Lemma no_chunk_still_reduces_witness :
  summarize_text splitter_ok (fixed_splitter []) client_ok
    (fixed_llm (lit "r")) (lit "um") default_model 2000 200 []
  = (Ok (lit "r"),
     [EvSplit 2000 200 (lit "um"); EvChatOpenAI default_model 0;
      EvInvoke default_model reduce_template]).
Proof.
  apply (no_chunk_still_reduces splitter_ok (fixed_splitter []) client_ok
           (fixed_llm (lit "r")) (lit "um") default_model 2000 200);
    reflexivity.
Defined.

Lemma main_calls_need_text_witness :
  exists args,
    parse_to sample_args sample_argv = Parsed args /\
    any_file (input_file args) = true /\
    exists text,
      file_with (lit "um") (input_file args) = Ok text /\ ~ blank text.
Proof.
  apply (main_calls_need_text splitter_ok (fixed_splitter [lit "um"])
           client_ok (fixed_llm (lit "r")) dotenv_ok (parse_to sample_args)
           any_file (file_with (lit "um")) utf8_stdout sample_argv
           (Ok tt)
           [EvSplit 2000 200 (lit "um"); EvChatOpenAI default_model 0;
            EvInvoke default_model (map_prompt (lit "um"));
            EvInvoke default_model (reduce_prompt (lit "r"));
            EvPrint (lit "r")]).
  - reflexivity.
  - vm_compute. lia.
Defined.

Lemma summarize_text_success_witness :
  summarize_text splitter_ok (fixed_splitter [lit "um"; lit "dois"])
    client_ok (fixed_llm (lit "r")) (lit "um dois") default_model 4 1 []
  = (Ok (lit "r"),
     [EvSplit 4 1 (lit "um dois"); EvChatOpenAI default_model 0;
      EvInvoke default_model (map_prompt (lit "um"));
      EvInvoke default_model (map_prompt (lit "dois"));
      EvInvoke default_model (reduce_prompt (lit "r

r"))]).
Proof.
  apply (summarize_text_success splitter_ok
           (fixed_splitter [lit "um"; lit "dois"])
           client_ok (fixed_llm (lit "r")) (lit "um dois") default_model 4 1
           [lit "um"; lit "dois"] [lit "r"; lit "r"]
           [EvSplit 4 1 (lit "um dois"); EvChatOpenAI default_model 0;
            EvInvoke default_model (map_prompt (lit "um"));
            EvInvoke default_model (map_prompt (lit "dois"))]);
    reflexivity.
Defined.

Lemma map_stage_order_witness :
  exists s,
    nth_error [lit "r"; lit "r"] 1 = Some s /\
    fixed_llm (lit "r")
      ([] ++ map_events default_model (firstn 1 [lit "um"; lit "dois"]))
      default_model (map_prompt (lit "dois")) = Ok s.
Proof.
  apply (map_stage_order (fixed_llm (lit "r")) default_model
           [lit "um"; lit "dois"] [] [lit "r"; lit "r"]
           [EvInvoke default_model (map_prompt (lit "um"));
            EvInvoke default_model (map_prompt (lit "dois"))]);
    reflexivity.
Defined.

End SummarizerMore.

(** ** More on the Scopus search *)

Module ScopusMore.

Import Scopus Double PyFacts.

Lemma range_in a b s l x :
  range a b s = Some l -> 0 < s -> In x l ->
  a <= x < b /\ exists k, 0 <= k /\ x = a + k * s.
Proof.
  unfold range. intros H Hs Hin.
  destruct (s =? 0); [discriminate H|]. injection H as <-.
  apply in_map_iff in Hin. destruct Hin as (i & <- & Hi).
  apply in_seq in Hi. unfold range_len in Hi.
  destruct (0 <? s) eqn:E; [|apply Z.ltb_ge in E; lia].
  destruct (a <? b) eqn:E2; [|simpl in Hi; lia].
  apply Z.ltb_lt in E2.
  assert (Hd : s * ((b - a - 1) / s) <= b - a - 1)
    by (apply Z.mul_div_le; lia).
  assert (Hq : 0 <= (b - a - 1) / s) by (apply Z.div_pos; lia).
  split; [|exists (Z.of_nat i); split; [lia|reflexivity]].
  assert (Hi' : Z.of_nat i <= (b - a - 1) / s) by lia.
  split; [nia|nia].
Qed.

Lemma range_none_needed count m :
  0 < count -> m <= count -> range count m count = Some [].
Proof.
  intros Hc Hm. unfold range, range_len.
  destruct (count =? 0) eqn:E; [apply Z.eqb_eq in E; lia|].
  destruct (0 <? count) eqn:E1; [|apply Z.ltb_ge in E1; lia].
  destruct (count <? m) eqn:E2; [apply Z.ltb_lt in E2; lia|].
  reflexivity.
Qed.

Section Web.

Variable str_to_int : str -> option Z.

(** [parse_total] raises nothing but the [AttributeError] of a [.get] on
    something that is no dictionary and the [OverflowError] of an infinite
    total. *)
Theorem parse_total_errors payload e :
  parse_total str_to_int payload = Raise e ->
  exn_class e = AttributeError \/ exn_class e = OverflowError.
Proof.
  unfold parse_total, raw_total. intros H.
  destruct payload as [|b|z|f|s|l|d]; simpl in H;
    try (injection H as <-; left; reflexivity).
  destruct (dict_get d search_results_key (JDict [])) as [|b|z|f|s|l|sr];
    simpl in H; try (injection H as <-; left; reflexivity).
  destruct (dict_get sr total_results_key (JInt 0)) as [|b|z|f|s|l|d'];
    simpl in H; try discriminate H.
  - destruct f as [sg|sg| |sg m ex]; simpl in H; try discriminate H.
    injection H as <-. right. reflexivity.
  - destruct (str_to_int s); discriminate H.
Qed.

Variable get_page : str -> str -> Z -> Z -> result json.

(** With a page size of zero the search never returns a result; once the
    first page is in and its total and entries are read, [range] rejects
    the zero step with its [ValueError]. *)
Theorem search_scopus_zero_count api_key query max_results :
  (forall r,
     search_scopus str_to_int get_page api_key query 0 max_results <> Ok r)
  /\
  (forall payload total first,
     get_page api_key query 0 0 = Ok payload ->
     parse_total str_to_int payload = Ok total ->
     page_entries payload = Ok first ->
     search_scopus str_to_int get_page api_key query 0 max_results
     = Raise (Exn ValueError (lit "range() arg 3 must not be zero"))).
Proof.
  split.
  - intros r. unfold search_scopus. intros H.
    destruct (get_page api_key query 0 0) as [payload|]; [|discriminate H].
    cbn [rbind] in H.
    destruct (parse_total str_to_int payload) as [total|];
      [|discriminate H].
    cbn [rbind] in H.
    destruct (page_entries payload) as [first|]; [|discriminate H].
    cbn [rbind] in H. discriminate H.
  - intros payload total first Hp Ht He. unfold search_scopus.
    rewrite Hp. cbn [rbind]. rewrite Ht. cbn [rbind]. rewrite He.
    reflexivity.
Qed.

(** When the first page already reaches min(total, max_results), the
    result is read off that page alone: no other page has a say. *)
Theorem search_scopus_first_page_suffices api_key query count max_results
  payload total :
  0 < count ->
  get_page api_key query count 0 = Ok payload ->
  parse_total str_to_int payload = Ok total ->
  Z.min total max_results <= count ->
  search_scopus str_to_int get_page api_key query count max_results
  = (entries <-- page_entries payload ;;
     sliced <-- slice entries (Z.min total max_results) ;;
     Ok {| total_results := total; entries := sliced |}).
Proof.
  intros Hc Hp Ht Hm. unfold search_scopus.
  rewrite Hp. cbn [rbind]. rewrite Ht. cbn [rbind].
  destruct (page_entries payload) as [first|e]; [|reflexivity].
  cbn [rbind]. rewrite (range_none_needed _ _ Hc Hm). reflexivity.
Qed.

Lemma fetch_pages_list api_key query count : forall starts l all,
  fetch_pages get_page api_key query count starts (JList l) = Ok all ->
  exists items,
    Forall2 (fun start its =>
               page_items get_page api_key query count start = Ok its)
            starts items /\
    all = JList (l ++ List.concat items).
Proof.
  induction starts as [|start r IH]; intros l all H; simpl in H.
  - injection H as <-. exists []. split; [constructor|].
    simpl. now rewrite app_nil_r.
  - destruct (get_page api_key query count start) as [page|] eqn:Hp;
      [|discriminate H].
    cbn [rbind] in H. unfold extend in H.
    destruct (page_entries page) as [more|] eqn:Hm; [|discriminate H].
    cbn [rbind] in H.
    destruct (iterate more) as [its|] eqn:Hi; [|discriminate H].
    cbn [rbind] in H.
    destruct (IH _ _ H) as (items & F & ->).
    exists (its :: items). split.
    + constructor; [|exact F].
      unfold page_items. rewrite Hp. cbn [rbind]. rewrite Hm. cbn [rbind].
      exact Hi.
    + simpl. now rewrite <- app_assoc.
Qed.

(** A search that returns has read every page from [count] up to, not
    including, min(total, max_results), in steps of [count]; its entries
    are those of the first page followed by those of the later pages in
    page order, cut by the slice. *)
Theorem search_scopus_collects_in_order api_key query count max_results r
  payload first :
  search_scopus str_to_int get_page api_key query count max_results = Ok r ->
  get_page api_key query count 0 = Ok payload ->
  page_entries payload = Ok (JList first) ->
  let m := Z.min (total_results r) max_results in
  exists starts items,
    range count m count = Some starts /\
    (0 < count ->
     Forall (fun start => count <= start < m /\
                          exists k, 0 <= k /\ start = count + k * count)
            starts) /\
    Forall2 (fun start its =>
               page_items get_page api_key query count start = Ok its)
            starts items /\
    entries r = JList (slice_to (first ++ List.concat items) m).
Proof.
  unfold search_scopus. intros H Hp He. rewrite Hp in H. cbn [rbind] in H.
  destruct (parse_total str_to_int payload) as [total|]; [|discriminate H].
  cbn [rbind] in H. rewrite He in H. cbn [rbind] in H.
  destruct (range count (Z.min total max_results) count) as [starts|] eqn:Hr;
    [|discriminate H].
  cbn [rbind] in H.
  destruct (fetch_pages get_page api_key query count starts (JList first))
    as [all|] eqn:Hf; [|discriminate H].
  cbn [rbind] in H.
  destruct (fetch_pages_list _ _ _ _ _ _ Hf) as (items & F & ->).
  simpl in H. injection H as <-. simpl.
  exists starts, items. split; [exact Hr|]. split; [|split].
  - intros Hc. apply Forall_forall. intros x Hx.
    exact (range_in _ _ _ _ _ Hr Hc Hx).
  - exact F.
  - reflexivity.
Qed.

End Web.

Lemma parse_total_errors_witness :
  exn_class (Exn OverflowError
               (lit "cannot convert float infinity to integer"))
  = AttributeError \/
  exn_class (Exn OverflowError
               (lit "cannot convert float infinity to integer"))
  = OverflowError.
Proof.
  apply (parse_total_errors ascii_decimal
           (page_of (JFloat (S754_infinity false)) [])).
  reflexivity.
Defined.

Lemma search_scopus_zero_count_witness :
  search_scopus ascii_decimal (one_page (page_of (JInt 3) three_entries))
    (lit "k") (lit "q") 0 25
  = Raise (Exn ValueError (lit "range() arg 3 must not be zero")).
Proof.
  apply (proj2 (search_scopus_zero_count ascii_decimal
                  (one_page (page_of (JInt 3) three_entries))
                  (lit "k") (lit "q") 25)
           (page_of (JInt 3) three_entries) 3 (JList three_entries));
    reflexivity.
Defined.

Lemma search_scopus_first_page_suffices_witness :
  search_scopus ascii_decimal (one_page (page_of (JInt 3) three_entries))
    (lit "k") (lit "q") 25 200
  = Ok {| total_results := 3; entries := JList three_entries |}.
Proof.
  apply (search_scopus_first_page_suffices ascii_decimal
           (one_page (page_of (JInt 3) three_entries)) (lit "k") (lit "q")
           25 200 (page_of (JInt 3) three_entries) 3).
  - reflexivity.
  - reflexivity.
  - reflexivity.
  - vm_compute. discriminate.
Defined.

Lemma search_scopus_collects_in_order_witness :
  exists starts items,
    range 2 (Z.min 5 4) 2 = Some starts /\
    (0 < 2 ->
     Forall (fun start => 2 <= start < Z.min 5 4 /\
                          exists k, 0 <= k /\ start = 2 + k * 2) starts) /\
    Forall2 (fun start its =>
               page_items two_per_page (lit "k") (lit "q") 2 start = Ok its)
            starts items /\
    JList [JInt 0; JInt 1; JInt 2; JInt 3]
    = JList (slice_to ([JInt 0; JInt 1] ++ List.concat items) (Z.min 5 4)).
Proof.
  apply (search_scopus_collects_in_order ascii_decimal two_per_page
           (lit "k") (lit "q") 2 4
           {| total_results := 5;
              entries := JList [JInt 0; JInt 1; JInt 2; JInt 3] |}
           (page_of (JStr (lit "5")) [JInt 0; JInt 1]) [JInt 0; JInt 1]);
    reflexivity.
Defined.

End ScopusMore.
